(** * Dom: a shallow embedding of [src/Dom.ts]

    [Dom] is a class of static helpers, each a few lines over the browser's
    document and element objects.  The development has three layers:

    - [Js]: what the language gives: [a || b], completions (a call returns
      or throws), Numbers as property keys, and arrays as [new Array(n)]
      makes them;
    - [Host]: the part of the platform the helpers call: an element's own
      properties, its class list and attributes, the document tree and its
      live collections; and the values a caller can pass for an argument
      (optional arguments, [typeof], [String(x)]), which come after the
      element because the conversion of an object runs code of the caller
      that may change it;
    - [Dom]: the helpers of the source under the source's names, one
      definition per method (all but [appendHtml], [createElement] and
      [title], which no property below concerns). *)

From Stdlib Require Import ZArith String Ascii DecimalString DecimalPos DecimalZ.
From stdpp Require Import base option list strings gmap.
From Equations Require Import Equations.

(** ** JavaScript: completions, Numbers, arrays *)

Module Js.

(** [a || b] on strings: the empty string is the only falsy string. *)
Definition or_string (a b : string) : string :=
  match a with
  | EmptyString => b
  | _ => a
  end.

(** [a || b] where [a] may be [null], as [getAttribute] returns it. *)
Definition or_nullable (a : option string) (b : string) : string :=
  match a with
  | None => b
  | Some s => or_string s b
  end.

(** The exceptions a call can end in: those the platform raises on
    malformed input or on a control that refuses an assignment, the
    [TypeError] of the language, and whatever code of the caller throws
    (named here by a description). *)
Inductive DOMException : Type :=
  | SyntaxError
  | InvalidCharacterError
  | InvalidStateError
  | TypeError
  | Thrown (what : string).

(** A call completes normally with a value or abruptly with an exception. *)
Inductive Completion (A : Type) : Type :=
  | Normal (a : A)
  | Throw (e : DOMException).
Arguments Normal {A} a.
Arguments Throw {A} e.

Definition bind {A B} (c : Completion A) (k : A -> Completion B) : Completion B :=
  match c with
  | Normal a => k a
  | Throw e => Throw e
  end.

(** A call that may change a state [S] yields its completion and the
    state it leaves behind, which after a [Throw] is the state reached
    when the exception was raised.  [and_then] runs the next statement
    unless the first one threw. *)
Definition and_then {S A B} (r : Completion A * S)
  (k : A -> S -> Completion B * S) : Completion B * S :=
  match r with
  | (Normal a, s) => k a s
  | (Throw e, s) => (Throw e, s)
  end.

(** "No exception is raised". *)
Definition completes {A} (c : Completion A) : Prop := ∃ a, c = Normal a.

(** What a locator hands back: an element, [null] or [undefined]. *)
Inductive Located (T : Type) : Type :=
  | Found (t : T)
  | Null
  | Undefined.
Arguments Found {T} t.
Arguments Null {T}.
Arguments Undefined {T}.

(** An array of element references: a cell is an element or a hole
    ([new Array(n)] makes [n] holes; reading one gives [undefined]). *)
Abbreviation Array T := (list (option T)).

Definition new_Array {T} (n : nat) : Array T := replicate n None.

(** [a[i] = x].  Inside the array the cell is overwritten; at or past its
    end JavaScript grows the array, padding with holes. *)
Definition array_set {T} (a : Array T) (i : nat) (x : option T) : Array T :=
  if decide (i < length a) then <[i := x]> a
  else a ++ replicate (i - length a) None ++ [x].

(** *** Numbers

    Every integer of magnitude up to 2^53 - 1 is a Number, and those are
    the Numbers that [Number::toString] prints digit for digit in plain
    decimal.  [JNumber 42] and the like elaborate with the bound checked
    by computation. *)
Class SafeInteger (n : Z) : Prop :=
  safe_integer : (Z.abs n <=? 9007199254740991)%Z = true.

#[global] Hint Extern 0 (SafeInteger _) => reflexivity : typeclass_instances.

Definition decimal (n : Z) : string := NilZero.string_of_int (Z.to_int n).

(** [s] is the decimal numeral of [n]: read digit by digit it is a numeral
    that denotes [n] and has no leading zero (and no sign on zero). *)
Definition numeral_of (n : Z) (s : string) : Prop :=
  ∃ d, NilZero.int_of_string s = Some d ∧ Z.of_int d = n ∧ Decimal.norm d = d.

(** A Number is a safe integer or any other Number (a fraction, an integer
    beyond the safe ones, [NaN], an infinity).  The helpers do two things
    with a Number, print it and use it as a property key, and both go
    through [Number::toString]; a Number of the second kind is given by
    what that prints for it (["0.5"], ["1e+21"], ["NaN"]). *)
Inductive Number : Type :=
  | Integer (n : Z) {safe : SafeInteger n}
  | OtherNumber (printed : string).

Definition Number_toString (x : Number) : string :=
  match x with
  | Integer n => decimal n
  | OtherNumber printed => printed
  end.

(** A property key is an array index when it is the canonical form of an
    integer from 0 to 2^32 - 2. *)
Definition array_index (x : Number) : option nat :=
  match x with
  | Integer n =>
      if decide (0 ≤ n ≤ 4294967294)%Z then Some (Z.to_nat n) else None
  | OtherNumber _ => None
  end.

(** An array is a snapshot of a sequence when it has the sequence's length
    and holds, cell by cell and in the same order, the sequence's
    elements. *)
Definition snapshot_of {T} (elements : Array T) (matched : list T) : Prop :=
  length elements = length matched ∧
  ∀ i, elements !! i = Some <$> (matched !! i).

End Js.

Export Js.

(** ** The platform *)

Module Host.

(** *** An element's own state

    One field per platform property the helpers read or assign.  The
    platform keeps some of them in step with one another (the class list
    with the [class] attribute, the text content with the markup); the
    helpers never rely on that.  The statements below name the element
    after an assignment by the setter applied to the element before, and
    read back from it only the property that was assigned.

    The platform treats names by the kind of element: on an HTML element
    of an HTML document it folds tag and attribute names to lower case;
    on an HTML element of an XML document and on an element of another
    namespace (SVG, MathML) it takes them as written. *)
Inductive Kind : Type :=
  | InHTML
  | InXML
  | Foreign.

Record Element : Type := mkElement {
  kind : Kind;
  localName : string;                 (* tag name, as the document has it *)
  id : string;                        (* the empty string: no id *)
  classList : list string;            (* DOMTokenList, an ordered set *)
  style_display : string;             (* element.style.display *)
  textContent : string;               (* never null on an element *)
  value : string;
  innerHTML : string;
  checked : bool;
  disabled : bool;
  attributes : gmap string string
}.

Definition folds_case (e : Element) : bool :=
  match kind e with InHTML => true | _ => false end.

Definition html_namespace (e : Element) : bool :=
  match kind e with Foreign => false | _ => true end.

Definition set_style_display (v : string) (e : Element) : Element :=
  mkElement (kind e) (localName e) (id e) (classList e) v (textContent e)
            (value e) (innerHTML e) (checked e) (disabled e) (attributes e).

Definition set_textContent (v : string) (e : Element) : Element :=
  mkElement (kind e) (localName e) (id e) (classList e) (style_display e) v
            (value e) (innerHTML e) (checked e) (disabled e) (attributes e).

Definition set_checked (v : bool) (e : Element) : Element :=
  mkElement (kind e) (localName e) (id e) (classList e) (style_display e)
            (textContent e) (value e) (innerHTML e) v (disabled e)
            (attributes e).

Definition set_disabled (v : bool) (e : Element) : Element :=
  mkElement (kind e) (localName e) (id e) (classList e) (style_display e)
            (textContent e) (value e) (innerHTML e) (checked e) v
            (attributes e).

Definition with_value (v : string) (e : Element) : Element :=
  mkElement (kind e) (localName e) (id e) (classList e) (style_display e)
            (textContent e) v (innerHTML e) (checked e) (disabled e)
            (attributes e).

Definition with_innerHTML (v : string) (e : Element) : Element :=
  mkElement (kind e) (localName e) (id e) (classList e) (style_display e)
            (textContent e) (value e) v (checked e) (disabled e)
            (attributes e).

Definition with_classList (l : list string) (e : Element) : Element :=
  mkElement (kind e) (localName e) (id e) l (style_display e) (textContent e)
            (value e) (innerHTML e) (checked e) (disabled e) (attributes e).

Definition with_attributes (m : gmap string string) (e : Element) : Element :=
  mkElement (kind e) (localName e) (id e) (classList e) (style_display e)
            (textContent e) (value e) (innerHTML e) (checked e) (disabled e) m.

(** *** The values a caller can pass

    Types are erased at run time, so a parameter typed [any], [string] or
    [boolean] receives any value of the language.  A Number is a safe
    integer ([JNumber]) or another Number given by what it prints as
    ([JOtherNumber], see [Number]).  An object or function is given by
    what its conversion to a string does: it runs [toString] and
    [valueOf], code of the caller that may change the element before it
    returns a string or throws.

    An optional parameter [x?: T] is an [option Value]: [None] is the
    omitted argument, which the body sees as [undefined]; passing
    [undefined] explicitly is the same call, and so, for the guards of the
    helpers, is passing the one object whose [typeof] is ["undefined"]
    ([document.all]). *)
Inductive Value : Type :=
  | JNull
  | JBoolean (b : bool)
  | JNumber (n : Z) {safe : SafeInteger n}
  | JOtherNumber (printed : string)
  | JString (s : string)
  | JBigInt (n : Z)
  | JSymbol (description : string)
  | JObject (callable : bool)
            (conversion : Element -> Completion string * Element).

(** [typeof x], for an optional argument. *)
Definition typeof (x : option Value) : string :=
  match x with
  | None => "undefined"
  | Some JNull => "object"
  | Some (JBoolean _) => "boolean"
  | Some (JNumber _) => "number"
  | Some (JOtherNumber _) => "number"
  | Some (JString _) => "string"
  | Some (JBigInt _) => "bigint"
  | Some (JSymbol _) => "symbol"
  | Some (JObject callable _) => if callable then "function" else "object"
  end.

(** [String(x)] on a supplied value, evaluated while the element is in
    state [e]: the string or the exception, and the element afterwards
    (the same element unless [x] is an object). *)
Definition to_String (x : Value) (e : Element) : Completion string * Element :=
  match x with
  | JNull => (Normal "null", e)
  | JBoolean true => (Normal "true", e)
  | JBoolean false => (Normal "false", e)
  | JNumber n => (Normal (decimal n), e)
  | JOtherNumber printed => (Normal printed, e)
  | JString s => (Normal s, e)
  | JBigInt n => (Normal (decimal n), e)
  | JSymbol description => (Normal ("Symbol(" +:+ description +:+ ")"), e)
  | JObject _ conversion => conversion e
  end.

(** *** The class list

    [add] and [remove] first validate every token: the empty string is a
    [SyntaxError], a token with ASCII whitespace an
    [InvalidCharacterError], and nothing is changed.  [contains] validates
    nothing. *)
Definition is_ascii_whitespace (c : ascii) : bool :=
  match c with
  | "009" | "010" | "012" | "013" | " " => true
  | _ => false
  end%char.

Fixpoint has_whitespace (s : string) : bool :=
  match s with
  | EmptyString => false
  | String c s' => is_ascii_whitespace c || has_whitespace s'
  end.

Definition validate_token (token : string) : Completion unit :=
  match token with
  | EmptyString => Throw SyntaxError
  | _ => if has_whitespace token then Throw InvalidCharacterError
         else Normal tt
  end.

Fixpoint validate_tokens (tokens : list string) : Completion unit :=
  match tokens with
  | [] => Normal tt
  | t :: ts => bind (validate_token t) (fun _ => validate_tokens ts)
  end.

(** A class name: a token the class list accepts. *)
Definition class_name (token : string) : Prop := validate_token token = Normal tt.

Definition contains (token : string) (e : Element) : bool :=
  bool_decide (token ∈ classList e).

Definition append_token (l : list string) (token : string) : list string :=
  if decide (token ∈ l) then l else l ++ [token].

Definition remove_token (l : list string) (token : string) : list string :=
  filter (fun t => t ≠ token) l.

Definition classList_add (tokens : list string) (e : Element)
  : Completion unit * Element :=
  match validate_tokens tokens with
  | Normal _ =>
      (Normal tt, with_classList (foldl append_token (classList e) tokens) e)
  | Throw ex => (Throw ex, e)
  end.

Definition classList_remove (tokens : list string) (e : Element)
  : Completion unit * Element :=
  match validate_tokens tokens with
  | Normal _ =>
      (Normal tt, with_classList (foldl remove_token (classList e) tokens) e)
  | Throw ex => (Throw ex, e)
  end.

(** *** The document tree *)
#[warnings="-register-all"]
Inductive Node : Type :=
  | Elem (element : Element) (children : list Node).

Definition element_of (n : Node) : Element :=
  match n with Elem e _ => e end.

Definition children_of (n : Node) : list Node :=
  match n with Elem _ ks => ks end.

(** A document in quirks mode compares class names without regard to
    ASCII case in [getElementsByClassName]. *)
Record Document : Type := mkDocument {
  title : string;
  quirks : bool;
  roots : list Node
}.

(** The scope of a selector query: the document or one of its elements. *)
Inductive ParentNode : Type :=
  | OfDocument (d : Document)
  | OfElement (n : Node).

(** An element with its descendants, in tree order. *)
Fixpoint subtree (n : Node) : list Node :=
  match n with
  | Elem _ ks => n :: concat (map subtree ks)
  end.

Definition descendants (p : ParentNode) : list Node :=
  match p with
  | OfDocument d => concat (map subtree (roots d))
  | OfElement n => concat (map subtree (children_of n))
  end.

(** *** What differs from one platform to the next

    - which names [setAttribute] accepts (it throws
      [InvalidCharacterError] on the others);
    - what a form control does when a string is assigned to [value]: the
      value it keeps (its value sanitization), or the exception its setter
      throws (a file input refuses every string but the empty one);
    - what an element does when a string is assigned to [innerHTML]: the
      markup it reads back once the string has been parsed into the
      element, or the exception of the parser (in an XML document);
    - the selector engine: [None] on a string that is no selector (a
      [SyntaxError]), else the elements of a scope that match, in tree
      order. *)
Class Platform : Type := {
  valid_attribute_name : string -> bool;
  value_setter : Element -> string -> Completion string;
  innerHTML_setter : Element -> string -> Completion string;
  selector_engine : string -> option (ParentNode -> list Node)
}.

(** *** Properties the platform normalises on assignment *)
Definition set_value `{Platform} (v : string) (e : Element)
  : Completion unit * Element :=
  match value_setter e v with
  | Normal kept => (Normal tt, with_value kept e)
  | Throw ex => (Throw ex, e)
  end.

Definition set_innerHTML `{Platform} (v : string) (e : Element)
  : Completion unit * Element :=
  match innerHTML_setter e v with
  | Normal kept => (Normal tt, with_innerHTML kept e)
  | Throw ex => (Throw ex, e)
  end.

Definition ascii_lowercase (c : ascii) : ascii :=
  let n := nat_of_ascii c in
  if (65 <=? n)%nat && (n <=? 90)%nat then ascii_of_nat (n + 32) else c.

Fixpoint lowercase (s : string) : string :=
  match s with
  | EmptyString => EmptyString
  | String c s' => String (ascii_lowercase c) (lowercase s')
  end.

(** *** Attributes

    An attribute is stored under the name the platform makes of the name
    given: the name in lower case on an HTML element of an HTML document,
    the name as written on any other element.  [setAttribute] checks the
    name as written first.  [getAttribute] answers [null] for an attribute
    the element does not have. *)
Definition attribute_key (e : Element) (name : string) : string :=
  if folds_case e then lowercase name else name.

Definition getAttribute (name : string) (e : Element) : option string :=
  attributes e !! attribute_key e name.

Definition setAttribute `{Platform} (name v : string) (e : Element)
  : Completion unit * Element :=
  if valid_attribute_name name
  then (Normal tt,
        with_attributes (<[attribute_key e name := v]> (attributes e)) e)
  else (Throw InvalidCharacterError, e).

(** *** Lookups in the document *)

(** A live collection is a view: every access reads the document as it is
    then. *)
Definition HTMLCollection : Type := Document -> list Node.

Definition getElementById (elementId : string) (d : Document) : Located Node :=
  match elementId with
  | EmptyString => Null
  | _ => match filter (fun n => id (element_of n) = elementId)
                      (descendants (OfDocument d)) with
         | n :: _ => Found n
         | [] => Null
         end
  end.

(** The tokens of a class-name argument, split on ASCII whitespace. *)
Fixpoint tokens_go (cur : option string) (s : string) : list string :=
  match s with
  | EmptyString => option_list (String.rev <$> cur)
  | String c s' =>
      if is_ascii_whitespace c
      then option_list (String.rev <$> cur) ++ tokens_go None s'
      else tokens_go (Some (String c (default EmptyString cur))) s'
  end.

Definition tokens (s : string) : list string := tokens_go None s.

(** An element has a class asked for when the class is in its class list;
    in a quirks-mode document, when it is there up to ASCII case. *)
Definition has_class (quirks : bool) (c : string) (e : Element) : bool :=
  if quirks then bool_decide (lowercase c ∈ lowercase <$> classList e)
  else contains c e.

Definition getElementsByClassName (classNames : string) : HTMLCollection :=
  fun d =>
    match tokens classNames with
    | [] => []
    | cs => filter (fun n => forallb (fun c => has_class (quirks d) c
                                                 (element_of n)) cs)
                   (descendants (OfDocument d))
    end.

(** The tag name asked for is compared in lower case with an HTML element
    of an HTML document and as written with every other element; ["*"]
    matches every element. *)
Definition tag_matches (qualifiedName : string) (e : Element) : bool :=
  bool_decide
    (localName e
     = if folds_case e then lowercase qualifiedName else qualifiedName).

Definition getElementsByTagName (qualifiedName : string) : HTMLCollection :=
  fun d =>
    if decide (qualifiedName = "*") then descendants (OfDocument d)
    else filter (fun n => tag_matches qualifiedName (element_of n))
                (descendants (OfDocument d)).

Definition querySelectorAll `{Platform} (selector : string) (parent : ParentNode)
  : Completion (list Node) :=
  match selector_engine selector with
  | Some matching => Normal (matching parent)
  | None => Throw SyntaxError
  end.

Definition querySelector `{Platform} (selector : string) (parent : ParentNode)
  : Completion (Located Node) :=
  match selector_engine selector with
  | Some matching => Normal (match matching parent with
                             | n :: _ => Found n
                             | [] => Null
                             end)
  | None => Throw SyntaxError
  end.

(** [collection.namedItem(key)]: the first element whose id is the key,
    or which is in the HTML namespace and has the key as its [name]
    attribute; nothing for the empty key. *)
Definition named (key : string) (n : Node) : bool :=
  bool_decide
    (id (element_of n) = key ∨
     (html_namespace (element_of n) = true ∧
      attributes (element_of n) !! "name" = Some key)).

Definition namedItem (l : list Node) (key : string) : option Node :=
  match key with
  | EmptyString => None
  | _ => head (filter (named key) l)
  end.

(** [collection[index]] for a Number.  The key is what the Number prints
    as.  When it is an array index, the element at that position, and
    [undefined] at or past the length (names are not consulted).  When it
    is not (a negative or fractional Number, one from 2^32 - 1 on, [NaN]),
    the collection is asked for an element of that name, and the answer is
    [undefined] when there is none: nothing a Number prints as is the name
    of a property the collection inherits. *)
Definition item (l : list Node) (index : Number) : option Node :=
  match array_index index with
  | Some i => l !! i
  | None => namedItem l (Number_toString index)
  end.

End Host.

Export Host.

(** ** The helpers of [src/Dom.ts]

    A helper that returns a value and may change its element yields the
    value paired with the element afterwards; a [void] helper yields the
    element afterwards.  Where a call underneath can throw (a platform
    call, or the conversion of an argument), the value is a [Completion]
    (of [unit] for a [void] helper).  The global [document] is an
    argument. *)

Module Dom.

Section Helpers.
Context `{Platform}.

Definition gebid (id : string) (document : Document)
  : Completion (Located Node) :=
  Normal (getElementById id document).

(** The loop shared by [gebcn], [gebtn] and [qsAll]:
    [for (i = 0; i < coll.length; i += 1) elements[i] = coll[i]],
    the collection read afresh at every test and every access. *)
Equations? copy_from (coll : HTMLCollection) (document : Document) (i : nat)
  (elements : Array Node) : Array Node
  by wf (length (coll document) - i) lt :=
copy_from coll document i elements with decide (i < length (coll document)) := {
  | left _ => copy_from coll document (i + 1)
                (array_set elements i (coll document !! i));
  | right _ => elements }.
Proof. lia. Qed.

Definition gebcn (className : string) (document : Document)
  : Completion (Array Node) :=
  let elementsByClass := getElementsByClassName className in
  let elements := new_Array (length (elementsByClass document)) in
  Normal (copy_from elementsByClass document 0 elements).

Definition gebtn (tagName : string) (document : Document)
  : Completion (Array Node) :=
  let elementsByTag := getElementsByTagName tagName in
  let elements := new_Array (length (elementsByTag document)) in
  Normal (copy_from elementsByTag document 0 elements).

(** [parent] defaults to the document. *)
Definition qs (selector : string) (parent : option ParentNode)
  (document : Document) : Completion (Located Node) :=
  querySelector selector (default (OfDocument document) parent).

(** [querySelectorAll] returns a static list: the same at every access. *)
Definition qsAll (selector : string) (parent : option ParentNode)
  (document : Document) : Completion (Array Node) :=
  bind (querySelectorAll selector (default (OfDocument document) parent))
       (fun nodes =>
  let elements := new_Array (length nodes) in
  Normal (copy_from (fun _ => nodes) document 0 elements)).

Definition child (element : Node) (index : Number)
  : Completion (Located Node) :=
  Normal (match item (children_of element) index with
          | Some n => Found n
          | None => Undefined
          end).

Definition show (element : Element) : Element :=
  set_style_display "block" element.

Definition hide (element : Element) : Element :=
  set_style_display "none" element.

Definition visible (element : Element) (isVisible : option Value)
  : bool * Element :=
  let element :=
    match isVisible with
    | Some (JBoolean b) =>                 (* typeof isVisible === "boolean" *)
        set_style_display (if b then "block" else "none") element
    | _ => element
    end in
  (negb (String.eqb (style_display element) "none"), element).

(** In [element.textContent = String(text)] the conversion runs first
    and the assignment follows if it returned; the value of the assignment
    is the string assigned. *)
Definition text (element : Element) (text : option Value)
  : Completion string * Element :=
  match text with
  | None =>                                (* typeof text === "undefined" *)
      (Normal (or_string (textContent element) ""), element)
  | Some v =>
      and_then (to_String v element) (fun s element =>
      (Normal s, set_textContent s element))
  end.

Definition value (element : Element) (value : option Value)
  : Completion string * Element :=
  match value with
  | None => (Normal (Host.value element), element)
  | Some v =>
      and_then (to_String v element) (fun s element =>
      and_then (set_value s element) (fun _ element =>
      (Normal s, element)))
  end.

Definition innerHtml (element : Element) (html : option Value)
  : Completion string * Element :=
  match html with
  | Some (JString s) =>                    (* typeof html === "string" *)
      and_then (set_innerHTML s element) (fun _ element =>
      (Normal s, element))
  | _ => (Normal (innerHTML element), element)
  end.

Definition checked (element : Element) (isChecked : option Value)
  : bool * Element :=
  match isChecked with
  | Some (JBoolean b) => (b, set_checked b element)
  | _ => (Host.checked element, element)
  end.

Definition disabled (element : Element) (isDisabled : option Value)
  : bool * Element :=
  match isDisabled with
  | Some (JBoolean b) => (b, set_disabled b element)
  | _ => (Host.disabled element, element)
  end.

Definition ensureClass (element : Element) (cond : bool)
  (className : list string) : Completion unit * Element :=
  if cond then classList_add className element
  else classList_remove className element.

Definition addClass (element : Element) (className : list string)
  : Completion unit * Element :=
  classList_add className element.

Definition removeClass (element : Element) (className : list string)
  : Completion unit * Element :=
  classList_remove className element.

Definition swapClass (element : Element) (classToRemove classToAdd : string)
  : Completion unit * Element :=
  and_then (classList_remove [classToRemove] element) (fun _ element =>
  classList_add [classToAdd] element).

Definition attribute (element : Element) (name : string)
  (value : option Value) : Completion string * Element :=
  and_then (match value with
            | Some (JString v) =>          (* typeof value === "string" *)
                setAttribute name v element
            | _ => (Normal tt, element)
            end) (fun _ element =>
  (Normal (or_nullable (getAttribute name element) ""), element)).

Definition toggleClass (element : Element) (className : string)
  : Completion unit * Element :=
  if contains className element
  then classList_remove [className] element
  else classList_add [className] element.

End Helpers.

End Dom.

(** ** A platform to run the helpers on

    A small platform on which the helpers evaluate to closed values.  Its
    attribute names are the strings without whitespace, NUL, [/], [=] and
    [>]; a control whose [type] attribute is [file] refuses every string
    but the empty one with [InvalidStateError], and any other control is a
    text input, whose value sanitization strips line feeds and carriage
    returns; markup reads back as assigned (it serves here only on strings
    that are their own serialisation); its selector engine knows the
    universal selector and single type, class and id selectors and rejects
    every other string: an engine of a browser accepts many more, and none
    accepts the empty string. *)

Module Reference.

Definition is_name_char (c : ascii) : bool :=
  let n := nat_of_ascii c in
  ((97 <=? n)%nat && (n <=? 122)%nat) || ((65 <=? n)%nat && (n <=? 90)%nat)
  || ((48 <=? n)%nat && (n <=? 57)%nat) || (n =? 45)%nat || (n =? 95)%nat.

Fixpoint all_chars (p : ascii -> bool) (s : string) : bool :=
  match s with
  | EmptyString => true
  | String c s' => p c && all_chars p s'
  end.

Definition is_name (s : string) : bool :=
  match s with
  | EmptyString => false
  | _ => all_chars is_name_char s
  end.

Definition attribute_name_char (c : ascii) : bool :=
  negb (is_ascii_whitespace c) &&
  negb (bool_decide (c ∈ ["000"; "/"; "="; ">"]%char)).

Definition attribute_name (s : string) : bool :=
  match s with
  | EmptyString => false
  | _ => all_chars attribute_name_char s
  end.

Fixpoint strip_newlines (s : string) : string :=
  match s with
  | EmptyString => EmptyString
  | String c s' =>
      if bool_decide (c ∈ ["010"; "013"]%char) then strip_newlines s'
      else String c (strip_newlines s')
  end.

Definition simple_selector (selector : string)
  : option (ParentNode -> list Node) :=
  match selector with
  | EmptyString => None
  | String "*" EmptyString => Some descendants
  | String "." name =>
      if is_name name
      then Some (fun p => filter (fun n => name ∈ classList (element_of n))
                                 (descendants p))
      else None
  | String "#" name =>
      if is_name name
      then Some (fun p => filter (fun n => id (element_of n) = name)
                                 (descendants p))
      else None
  | name =>
      if is_name name
      then Some (fun p => filter (fun n => localName (element_of n)
                                           = lowercase name)
                                 (descendants p))
      else None
  end.

Definition control (e : Element) (s : string) : Completion string :=
  if decide (attributes e !! "type" = Some "file")
  then if decide (s = "") then Normal "" else Throw InvalidStateError
  else Normal (strip_newlines s).

#[global] Instance platform : Platform := {|
  valid_attribute_name := attribute_name;
  value_setter := control;
  innerHTML_setter := fun _ s => Normal s;
  selector_engine := simple_selector
|}.

(** A page: [<div id="main" class="box"> <p class="x">hi</p>
    <p class="x y">there</p> </div>] (the markup of the [div] is left out:
    nothing below reads it). *)
Definition para1 : Element :=
  mkElement InHTML "p" "" ["x"] "" "hi" "" "hi" false false {[ "class" := "x" ]}.

Definition para2 : Element :=
  mkElement InHTML "p" "" ["x"; "y"] "" "there" "" "there" false false
            {[ "class" := "x y" ]}.

Definition box : Element :=
  mkElement InHTML "div" "main" ["box"] "" "hithere" "" "" false false
            (<[ "class" := "box" ]> {[ "id" := "main" ]}).

Definition main : Node := Elem box [Elem para1 []; Elem para2 []].

Definition page : Document := mkDocument "page" false [main].

(** An empty [<input type="text">] and a string of two lines. *)
Definition field : Element :=
  mkElement InHTML "input" "" [] "" "" "" "" false false
            {[ "type" := "text" ]}.

(** An [<input type="file">]. *)
Definition chooser : Element :=
  mkElement InHTML "input" "" [] "" "" "" "" false false
            {[ "type" := "file" ]}.

(** [Object.create(null)]: an object with no [toString] and no [valueOf],
    whose conversion to a string is a [TypeError]. *)
Definition bare_object : Value :=
  JObject false (fun e => (Throw TypeError, e)).

(** [<ul> <li id="-1">a</li> <li>b</li> </ul>]: a list whose first item
    has the id ["-1"]. *)
Definition minus_one : Element :=
  mkElement InHTML "li" "-1" [] "" "a" "" "a" false false {[ "id" := "-1" ]}.

Definition plain_item : Element :=
  mkElement InHTML "li" "" [] "" "b" "" "b" false false ∅.

Definition listing : Node :=
  Elem (mkElement InHTML "ul" "" [] "" "ab" "" "" false false ∅)
       [Elem minus_one []; Elem plain_item []].

Definition two_lines : string :=
  String "a" (String "010" (String "b" EmptyString)).

(** The page after the second paragraph lost its class [x]. *)
Definition page' : Document :=
  mkDocument "page" false
    [Elem box [Elem para1 [];
               Elem (with_attributes {[ "class" := "y" ]}
                       (with_classList ["y"] para2)) []]].

End Reference.

(** * Properties *)

(** ** JavaScript values *)

Lemma typeof_undefined (x : option Value) : typeof x = "undefined" ↔ x = None.
Proof.
  destruct x as [[ | | | | | | | []]|]; simpl; split; congruence.
Qed.

Lemma typeof_string (x : option Value) :
  typeof x = "string" ↔ ∃ s, x = Some (JString s).
Proof.
  destruct x as [[ | | | |s| | | []]|]; simpl; split;
    try congruence; try (intros [s' Hs]; congruence).
  intros _. by exists s.
Qed.

Lemma typeof_boolean (x : option Value) :
  typeof x = "boolean" ↔ ∃ b, x = Some (JBoolean b).
Proof.
  destruct x as [[ |b| | | | | | []]|]; simpl; split;
    try congruence; try (intros [b' Hb]; congruence).
  intros _. by exists b.
Qed.

(** The guards of the helpers, as the source tests them. *)
Lemma text_guard (el : Element) (x : option Value) :
  typeof x = "undefined" →
  Dom.text el x = (Normal (or_string (textContent el) ""), el).
Proof. by intros ->%typeof_undefined. Qed.

Lemma innerHtml_guard `{Platform} (el : Element) (x : option Value) :
  typeof x ≠ "string" → Dom.innerHtml el x = (Normal (innerHTML el), el).
Proof. by destruct x as [[]|]. Qed.

Lemma checked_guard (el : Element) (x : option Value) :
  typeof x ≠ "boolean" → Dom.checked el x = (Host.checked el, el).
Proof. by destruct x as [[]|]. Qed.

Lemma disabled_guard (el : Element) (x : option Value) :
  typeof x ≠ "boolean" → Dom.disabled el x = (Host.disabled el, el).
Proof. by destruct x as [[]|]. Qed.

Lemma visible_guard (el : Element) (x : option Value) :
  typeof x ≠ "boolean" →
  Dom.visible el x = (negb (String.eqb (style_display el) "none"), el).
Proof. by destruct x as [[]|]. Qed.

Lemma or_string_empty (a : string) : or_string a "" = a.
Proof. by destruct a. Qed.

Lemma or_nullable_empty (a : option string) : or_nullable a "" = default "" a.
Proof. destruct a as [s|]; [apply or_string_empty | done]. Qed.

(** ** The copy loop *)

Section CopyLoop.

Lemma take_succ_array_set {T} (a : Array T) i x :
  i < length a → take (S i) (array_set a i x) = take i a ++ [x].
Proof.
  intros Hi. unfold array_set. rewrite decide_True by done.
  rewrite take_S_r with (x := x).
  - by rewrite take_insert_ge by lia.
  - by apply list_lookup_insert_eq.
Qed.

Lemma length_array_set_inside {T} (a : Array T) i x :
  i < length a → length (array_set a i x) = length a.
Proof.
  intros Hi. unfold array_set. rewrite decide_True by done. apply length_insert.
Qed.

(** From index [i] on, an array as long as the collection receives the
    collection's elements in order; the cells before [i] stay. *)
Lemma copy_from_fills coll d i elements :
  length elements = length (coll d) →
  Dom.copy_from coll d i elements
  = take i elements ++ (Some <$> drop i (coll d)).
Proof.
  funelim (Dom.copy_from coll d i elements); intros Hlen.
  - clear Heqcall Heq.
    destruct (lookup_lt_is_Some_2 (coll document) i l) as [n Hn].
    rewrite H by (rewrite length_array_set_inside; lia).
    replace (i + 1) with (S i) by lia.
    rewrite take_succ_array_set by lia.
    rewrite (drop_S _ _ _ Hn), Hn, fmap_cons.
    by rewrite <- app_assoc.
  - rewrite drop_ge by lia. rewrite take_ge by lia. by rewrite app_nil_r.
Qed.

Lemma copy_from_new_Array coll d :
  Dom.copy_from coll d 0 (new_Array (length (coll d))) = Some <$> coll d.
Proof.
  rewrite copy_from_fills by apply length_replicate. by rewrite take_0, drop_0.
Qed.

End CopyLoop.

Lemma gebcn_copies className document :
  Dom.gebcn className document
  = Normal (Some <$> getElementsByClassName className document).
Proof. unfold Dom.gebcn. by rewrite copy_from_new_Array. Qed.

Lemma gebtn_copies tagName document :
  Dom.gebtn tagName document
  = Normal (Some <$> getElementsByTagName tagName document).
Proof. unfold Dom.gebtn. by rewrite copy_from_new_Array. Qed.

Lemma qsAll_copies `{Platform} selector parent document matching :
  selector_engine selector = Some matching →
  Dom.qsAll selector parent document
  = Normal (Some <$> matching (default (OfDocument document) parent)).
Proof.
  intros Hsel. unfold Dom.qsAll, querySelectorAll. rewrite Hsel. simpl.
  by rewrite (copy_from_new_Array (fun _ => matching _)).
Qed.

Lemma qsAll_rejects `{Platform} selector parent document :
  selector_engine selector = None →
  Dom.qsAll selector parent document = Throw SyntaxError.
Proof. intros Hsel. unfold Dom.qsAll, querySelectorAll. by rewrite Hsel. Qed.

Lemma snapshot_of_fmap {T} (l : list T) : snapshot_of (Some <$> l) l.
Proof.
  split; [apply length_fmap | intros i; apply list_lookup_fmap].
Qed.

(** ** Element locators *)

(** C2. [gebcn], [gebtn] and [qsAll] (for a selector the engine accepts)
    return an array that is a snapshot of the matched collection as the
    document is at the call: same length, same elements, same order, no
    hole.  The array is a value of its own ([list], not a view
    [Document -> list Node]), so a later document does not show in it.
    With no match the array is the empty array, not [null]. *)
Theorem sequence_lookups_snapshot `{Platform}
  (className tagName selector : string) (parent : option ParentNode)
  (document : Document) (matching : ParentNode → list Node) :
  selector_engine selector = Some matching →
  let byClass := getElementsByClassName className document in
  let byTag := getElementsByTagName tagName document in
  let nodes := matching (default (OfDocument document) parent) in
  (∃ elements, Dom.gebcn className document = Normal elements ∧
     snapshot_of elements byClass ∧ (byClass = [] → elements = [])) ∧
  (∃ elements, Dom.gebtn tagName document = Normal elements ∧
     snapshot_of elements byTag ∧ (byTag = [] → elements = [])) ∧
  (∃ elements, Dom.qsAll selector parent document = Normal elements ∧
     snapshot_of elements nodes ∧ (nodes = [] → elements = [])).
Proof.
  intros Hsel byClass byTag nodes. repeat split.
  - exists (Some <$> byClass). split; [apply gebcn_copies|].
    split; [apply snapshot_of_fmap | by intros ->].
  - exists (Some <$> byTag). split; [apply gebtn_copies|].
    split; [apply snapshot_of_fmap | by intros ->].
  - exists (Some <$> nodes). split; [by apply qsAll_copies|].
    split; [apply snapshot_of_fmap | by intros ->].
Qed.

Lemma sequence_lookups_snapshot_witness :
  selector_engine ".x" = Some (fun p =>
    filter (fun n => "x" ∈ classList (element_of n)) (descendants p)) ∧
  ∃ elements,
    Dom.qsAll ".x" None Reference.page = Normal elements ∧
    snapshot_of elements
      [Elem Reference.para1 []; Elem Reference.para2 []] ∧
    length elements = 2.
Proof.
  assert (Hsel : selector_engine ".x" = Some (fun p =>
    filter (fun n => "x" ∈ classList (element_of n)) (descendants p)))
    by reflexivity.
  split; [exact Hsel|].
  destruct (sequence_lookups_snapshot "x" "p" ".x" None Reference.page _
              Hsel) as (_ & _ & elements & Hq & Hs & _).
  exists elements. split; [exact Hq|]. split; [exact Hs|]. apply Hs.
Defined.

(** The array taken from the page keeps both paragraphs after the page has
    changed, while the live collection then shows one. *)
Example snapshot_is_not_live :
  Dom.gebcn "x" Reference.page
  = Normal [Some (Elem Reference.para1 []); Some (Elem Reference.para2 [])] ∧
  getElementsByClassName "x" Reference.page' = [Elem Reference.para1 []].
Proof. split; reflexivity. Qed.

Lemma qs_accepts `{Platform} selector parent document matching :
  selector_engine selector = Some matching →
  Dom.qs selector parent document
  = Normal (match matching (default (OfDocument document) parent) with
            | n :: _ => Found n
            | [] => Null
            end).
Proof. intros Hsel. unfold Dom.qs, querySelector. by rewrite Hsel. Qed.

Lemma qs_rejects `{Platform} selector parent document :
  selector_engine selector = None →
  Dom.qs selector parent document = Throw SyntaxError.
Proof. intros Hsel. unfold Dom.qs, querySelector. by rewrite Hsel. Qed.


Lemma item_by_name (l : list Node) (index : Number) :
  array_index index = None →
  item l index = namedItem l (Number_toString index).
Proof. intros Hi. unfold item. by rewrite Hi. Qed.




(** ** Visibility *)

Lemma visible_read (el : Element) :
  Dom.visible el None
  = (negb (String.eqb (style_display el) "none"), el).
Proof. reflexivity. Qed.

Lemma eqb_none_false (s : string) :
  negb (String.eqb s "none") = true ↔ s ≠ "none".
Proof.
  rewrite negb_true_iff. destruct (String.eqb_spec s "none"); split;
    congruence.
Qed.

(** C3. After [show(el)], [visible(el)] is true; after [hide(el)] it is
    false; [visible(el, true)] sets the inline display to ["block"] and
    returns true; [visible(el)] changes nothing and is true exactly when
    the inline display is not ["none"]. *)
Theorem visible_show_hide (el : Element) :
  fst (Dom.visible (Dom.show el) None) = true ∧
  fst (Dom.visible (Dom.hide el) None) = false ∧
  Dom.visible el (Some (JBoolean true))
  = (true, set_style_display "block" el) ∧
  style_display (snd (Dom.visible el (Some (JBoolean true)))) = "block" ∧
  snd (Dom.visible el None) = el ∧
  (fst (Dom.visible el None) = true ↔ style_display el ≠ "none").
Proof.
  repeat split; try reflexivity.
  - rewrite visible_read. simpl. by intros ?%eqb_none_false.
  - rewrite visible_read. simpl. by intros ?%eqb_none_false.
Qed.

(** C10. [visible(el, b)] returns [b], for [false] as for [true], and
    leaves the inline display at ["block"] or ["none"] accordingly. *)
Theorem visible_returns_written (el : Element) (b : bool) :
  fst (Dom.visible el (Some (JBoolean b))) = b ∧
  style_display (snd (Dom.visible el (Some (JBoolean b))))
  = (if b then "block" else "none").
Proof. by destruct b. Qed.

(** ** Content and value accessors *)

Lemma decimal_numeral (n : Z) : numeral_of n (decimal n).
Proof.
  exists (Z.to_int n). split; [|split].
  - unfold decimal. apply NilZero.isi; destruct n; simpl; try discriminate;
      intros [= Hnil]; by apply Unsigned.to_uint_nonnil in Hnil.
  - apply DecimalZ.of_to.
  - rewrite <- (DecimalZ.of_to n) at 2. symmetry. apply DecimalZ.to_of.
Qed.

(** C4, as stated, fails: an object with no [toString] and no [valueOf] is
    a value that is no string, [String] throws a [TypeError] on it, and
    [text] passes the exception on having assigned nothing; [text(el)]
    afterwards returns the text the element had. *)
Lemma text_of_unconvertible :
  typeof (Some Reference.bare_object) ≠ "string" ∧
  Dom.text Reference.para1 (Some Reference.bare_object)
  = (Throw TypeError, Reference.para1) ∧
  Dom.text Reference.para1 None = (Normal "hi", Reference.para1).
Proof. repeat split. discriminate. Qed.

(** C4, amended.  For every value [v] on which [String(v)] returns,
    [text(el, v)] assigns that string to the text content and returns it,
    and [text(el)] afterwards returns it again.  [String] returns on every
    value that is no object: ["null"] for [null], ["true"] and ["false"]
    for the booleans, the decimal numeral for a safe integer (["42"] for
    42) and for a BigInt, what [Number::toString] prints for any other
    Number, ["Symbol(d)"] for a symbol.  On an object [String] runs the
    object's conversion: when that returns a string, [text] assigns it to
    the element as the conversion left it; when it throws, [text] throws
    the same exception and assigns nothing. *)
Theorem text_stringifies (el : Element) :
  let written (v : Value) (s : string) (el1 : Element) :=
    Dom.text el (Some v) = (Normal s, set_textContent s el1) ∧
    textContent (snd (Dom.text el (Some v))) = s ∧
    Dom.text (snd (Dom.text el (Some v))) None
    = (Normal s, snd (Dom.text el (Some v))) in
  written JNull "null" el ∧
  written (JBoolean true) "true" el ∧
  written (JBoolean false) "false" el ∧
  (∀ n (safe : SafeInteger n),
     ∃ s, numeral_of n s ∧ written (@JNumber n safe) s el) ∧
  written (JNumber 42) "42" el ∧
  (∀ printed, written (JOtherNumber printed) printed el) ∧
  (∀ n, ∃ s, numeral_of n s ∧ written (JBigInt n) s el) ∧
  (∀ d, written (JSymbol d) ("Symbol(" +:+ d +:+ ")") el) ∧
  (∀ callable conversion s el1,
     conversion el = (Normal s, el1) →
     written (JObject callable conversion) s el1) ∧
  (∀ callable conversion e el1,
     conversion el = (Throw e, el1) →
     Dom.text el (Some (JObject callable conversion)) = (Throw e, el1)).
Proof.
  assert (Hw : ∀ v s el1, to_String v el = (Normal s, el1) →
               Dom.text el (Some v) = (Normal s, set_textContent s el1) ∧
               textContent (snd (Dom.text el (Some v))) = s ∧
               Dom.text (snd (Dom.text el (Some v))) None
               = (Normal s, snd (Dom.text el (Some v)))).
  { intros v s el1 Hv. unfold Dom.text. rewrite Hv. simpl.
    by rewrite or_string_empty. }
  intros written.
  split; [by apply Hw|]. split; [by apply Hw|]. split; [by apply Hw|].
  split.
  { intros n safe. exists (decimal n). split; [apply decimal_numeral|].
    by apply Hw. }
  split; [by apply Hw|].
  split; [intros printed; by apply Hw|].
  split.
  { intros n. exists (decimal n). split; [apply decimal_numeral|].
    by apply Hw. }
  split; [intros d; by apply Hw|].
  split; [intros callable conversion s el1 Hc; by apply Hw|].
  intros callable conversion e el1 Hc. unfold Dom.text. simpl.
  by rewrite Hc.
Qed.

Lemma text_stringifies_witness :
  (fun e => (Normal "[object Object]", e)) Reference.para1
  = (Normal "[object Object]", Reference.para1) ∧
  Dom.text Reference.para1
    (Some (JObject false (fun e => (Normal "[object Object]", e))))
  = (Normal "[object Object]",
     set_textContent "[object Object]" Reference.para1) ∧
  (fun e => (@Throw string TypeError, e)) Reference.para1
  = (Throw TypeError, Reference.para1) ∧
  Dom.text Reference.para1 (Some Reference.bare_object)
  = (Throw TypeError, Reference.para1) ∧
  textContent (snd (Dom.text Reference.para1 (Some (JNumber (-7))))) = "-7".
Proof.
  destruct (text_stringifies Reference.para1)
    as (_ & _ & _ & Hnum & _ & _ & _ & _ & Hobj & Hthrow).
  split; [reflexivity|].
  split; [by apply (Hobj false _ _ _ eq_refl)|].
  split; [reflexivity|].
  split; [by apply (Hthrow false _ _ _ eq_refl)|].
  destruct (Hnum (-7)%Z _) as (s & _ & _ & Hs & _). reflexivity.
Defined.

Section Conversions.
Context `{Platform}.

(** [text] and [value] on a supplied argument, by what its conversion
    does. *)
Lemma text_value_converted (el : Element) (x : Value) (str : string)
  (el1 : Element) :
  to_String x el = (Normal str, el1) →
  Dom.text el (Some x) = (Normal str, set_textContent str el1) ∧
  textContent (snd (Dom.text el (Some x))) = str ∧
  (∀ kept, value_setter el1 str = Normal kept →
     Dom.value el (Some x) = (Normal str, with_value kept el1) ∧
     Host.value (snd (Dom.value el (Some x))) = kept) ∧
  (∀ e, value_setter el1 str = Throw e →
     Dom.value el (Some x) = (Throw e, el1)).
Proof.
  intros Hx. unfold Dom.text, Dom.value, set_value. rewrite Hx. simpl.
  split; [done|]. split; [done|].
  split; intros ? Hset; by rewrite Hset.
Qed.

Lemma text_value_unconverted (el : Element) (x : Value) (e : DOMException)
  (el1 : Element) :
  to_String x el = (Throw e, el1) →
  Dom.text el (Some x) = (Throw e, el1) ∧
  Dom.value el (Some x) = (Throw e, el1).
Proof. intros Hx. unfold Dom.text, Dom.value. by rewrite Hx. Qed.

Lemma innerHtml_written (el : Element) (s : string) :
  (∀ kept, innerHTML_setter el s = Normal kept →
     Dom.innerHtml el (Some (JString s)) = (Normal s, with_innerHTML kept el) ∧
     innerHTML (snd (Dom.innerHtml el (Some (JString s)))) = kept) ∧
  (∀ e, innerHTML_setter el s = Throw e →
     Dom.innerHtml el (Some (JString s)) = (Throw e, el)).
Proof.
  unfold Dom.innerHtml, set_innerHTML. split; intros ? Hset; by rewrite Hset.
Qed.

Lemma innerHtml_read (el : Element) (x : Value) :
  (∀ s, x ≠ JString s) →
  Dom.innerHtml el (Some x) = (Normal (innerHTML el), el).
Proof. intros Hx. destruct x; try reflexivity. by destruct (Hx s). Qed.

End Conversions.

(** C9, as stated, fails in its second half: [value] does not write every
    argument that is no string.  On an object with no [toString] and no
    [valueOf] the conversion throws and nothing is assigned; on a file
    input the number 42 is converted, the control refuses ["42"], and its
    value stays empty. *)
Lemma value_not_written :
  typeof (Some Reference.bare_object) ≠ "string" ∧
  Dom.value Reference.field (Some Reference.bare_object)
  = (Throw TypeError, Reference.field) ∧
  Dom.value Reference.chooser (Some (JNumber 42))
  = (Throw InvalidStateError, Reference.chooser) ∧
  Host.value Reference.chooser = "".
Proof. repeat split. discriminate. Qed.

(** C9, amended.  A supplied argument that is not a string makes
    [innerHtml] a read: it returns the current markup and leaves the
    element as it is, and the argument is not converted (the conversion of
    an object does not run).  [text] and [value] apply [String] to the
    same argument, which gives ["null"], ["true"], ["false"] and the
    decimal numeral of a safe integer: when the conversion returns,
    [text] assigns the string to the text content and [value] assigns it
    to the control, which keeps what its setter makes of it or refuses
    it; when the conversion or the setter throws, they throw the same
    exception and the property is not assigned. *)
Theorem innerHtml_ignores_non_string `{Platform} (el : Element) (x : Value) :
  (∀ s, x ≠ JString s) →
  Dom.innerHtml el (Some x) = (Normal (innerHTML el), el) ∧
  (∀ str el1, to_String x el = (Normal str, el1) →
     Dom.text el (Some x) = (Normal str, set_textContent str el1) ∧
     textContent (snd (Dom.text el (Some x))) = str ∧
     (∀ kept, value_setter el1 str = Normal kept →
        Dom.value el (Some x) = (Normal str, with_value kept el1) ∧
        Host.value (snd (Dom.value el (Some x))) = kept) ∧
     (∀ e, value_setter el1 str = Throw e →
        Dom.value el (Some x) = (Throw e, el1))) ∧
  (∀ e el1, to_String x el = (Throw e, el1) →
     Dom.text el (Some x) = (Throw e, el1) ∧
     Dom.value el (Some x) = (Throw e, el1)) ∧
  (x = JNull → to_String x el = (Normal "null", el)) ∧
  (∀ b, x = JBoolean b →
        to_String x el = (Normal (if b then "true" else "false"), el)) ∧
  (∀ n (safe : SafeInteger n), x = @JNumber n safe →
        ∃ str, to_String x el = (Normal str, el) ∧ numeral_of n str).
Proof.
  intros Hx. split; [by apply innerHtml_read|].
  split; [intros str el1; apply text_value_converted|].
  split; [intros e el1; apply text_value_unconverted|].
  split; [by intros ->|]. split; [by intros [] ->|].
  intros n safe ->. exists (decimal n). split; [done | apply decimal_numeral].
Qed.

Lemma innerHtml_ignores_non_string_witness :
  (∀ s, JNumber 42 ≠ JString s) ∧
  to_String (JNumber 42) Reference.field = (Normal "42", Reference.field) ∧
  value_setter Reference.field "42" = Normal "42" ∧
  to_String Reference.bare_object Reference.field
  = (Throw TypeError, Reference.field) ∧
  Dom.innerHtml Reference.para1 (Some (JNumber 42))
  = (Normal "hi", Reference.para1) ∧
  textContent (snd (Dom.text Reference.field (Some (JNumber 42)))) = "42" ∧
  Host.value (snd (Dom.value Reference.field (Some (JNumber 42)))) = "42" ∧
  Dom.value Reference.field (Some Reference.bare_object)
  = (Throw TypeError, Reference.field).
Proof.
  assert (Hn : ∀ s, JNumber 42 ≠ JString s) by (intros s; discriminate).
  assert (Ho : ∀ s, Reference.bare_object ≠ JString s)
    by (intros s; discriminate).
  split; [exact Hn|]. split; [reflexivity|]. split; [reflexivity|].
  split; [reflexivity|].
  destruct (innerHtml_ignores_non_string Reference.para1 _ Hn) as (Hi & _).
  destruct (innerHtml_ignores_non_string Reference.field _ Hn)
    as (_ & Hw & _).
  destruct (innerHtml_ignores_non_string Reference.field _ Ho)
    as (_ & _ & Ht & _).
  destruct (Hw "42" Reference.field eq_refl) as (_ & Htext & Hvalue & _).
  destruct (Hvalue "42" eq_refl) as (_ & Hkept).
  destruct (Ht TypeError Reference.field eq_refl) as (_ & Hthrow).
  split; [exact Hi|]. split; [exact Htext|]. split; [exact Hkept|].
  exact Hthrow.
Defined.

Lemma attribute_read `{Platform} (el : Element) (name : string)
  (x : option Value) :
  (∀ s, x ≠ Some (JString s)) →
  Dom.attribute el name x = (Normal (default "" (getAttribute name el)), el).
Proof.
  intros Hx. unfold Dom.attribute.
  destruct x as [[ | | | |s| | | ]|]; simpl; try by rewrite or_nullable_empty.
  by destruct (Hx s).
Qed.

Lemma attribute_write `{Platform} (el : Element) (name v : string) :
  valid_attribute_name name = true →
  Dom.attribute el name (Some (JString v))
  = (Normal v,
     with_attributes (<[attribute_key el name := v]> (attributes el)) el).
Proof.
  intros Hname. unfold Dom.attribute, setAttribute. rewrite Hname. simpl.
  unfold getAttribute. simpl.
  change (attribute_key (with_attributes _ el) name)
    with (attribute_key el name).
  rewrite lookup_insert_eq. simpl. by rewrite or_string_empty.
Qed.

Lemma getAttribute_written (el : Element) (name v : string) :
  getAttribute name
    (with_attributes (<[attribute_key el name := v]> (attributes el)) el)
  = Some v.
Proof.
  unfold getAttribute.
  change (attribute_key (with_attributes _ el) name)
    with (attribute_key el name).
  simpl. apply lookup_insert_eq.
Qed.

(** C1, as stated, fails twice.  [innerHtml] called with the number 42
    supplied writes nothing: the markup afterwards is what it was, not
    ["42"].  And [value] returns the string it assigns, not the value read
    back: on a text input, a string of two lines is returned as it came,
    while the control then holds it without the line feed. *)
Lemma supplied_argument_without_write :
  (Dom.innerHtml Reference.para1 (Some (JNumber 42))
   = (Normal "hi", Reference.para1) ∧
   innerHTML (snd (Dom.innerHtml Reference.para1 (Some (JNumber 42))))
   ≠ "42") ∧
  (fst (Dom.value Reference.field (Some (JString Reference.two_lines)))
   = Normal Reference.two_lines ∧
   Host.value (snd (Dom.value Reference.field
                      (Some (JString Reference.two_lines)))) = "ab" ∧
   Reference.two_lines ≠ "ab").
Proof. repeat split; try reflexivity; discriminate. Qed.

(** C1, amended.  With the argument omitted each accessor is a read: it
    returns the current value (the empty string for an absent attribute)
    and the element is unchanged.  [text] and [value] convert every
    supplied argument with [String] (["null"], ["true"], ["false"], the
    decimal numeral of a safe integer) and, when the conversion returns,
    assign the string: the text content is then that string, the control
    then holds what its setter keeps of it; both return the string
    assigned, not a value read back, and both pass on what the conversion
    or the setter throws, the property left unassigned.  [innerHtml] and
    [attribute] write only on a supplied string, [checked] and [disabled]
    only on a supplied boolean: the property read afterwards is what was
    written (for [innerHtml], what the platform kept of it; for
    [attribute], under a name the platform accepts), and they return the
    value given ([attribute]: the value read back); on a supplied argument
    of any other type these four read, as if it were omitted. *)
Theorem accessors_read_write `{Platform} (el : Element) (name : string)
  (x : Value) (s : string) (b : bool) :
  (Dom.text el None = (Normal (textContent el), el) ∧
   Dom.value el None = (Normal (Host.value el), el) ∧
   Dom.innerHtml el None = (Normal (innerHTML el), el) ∧
   Dom.checked el None = (Host.checked el, el) ∧
   Dom.disabled el None = (Host.disabled el, el) ∧
   Dom.attribute el name None
   = (Normal (default "" (getAttribute name el)), el)) ∧
  ((∀ str el1, to_String x el = (Normal str, el1) →
      Dom.text el (Some x) = (Normal str, set_textContent str el1) ∧
      textContent (snd (Dom.text el (Some x))) = str ∧
      (∀ kept, value_setter el1 str = Normal kept →
         Dom.value el (Some x) = (Normal str, with_value kept el1) ∧
         Host.value (snd (Dom.value el (Some x))) = kept) ∧
      (∀ e, value_setter el1 str = Throw e →
         Dom.value el (Some x) = (Throw e, el1))) ∧
   (∀ e el1, to_String x el = (Throw e, el1) →
      Dom.text el (Some x) = (Throw e, el1) ∧
      Dom.value el (Some x) = (Throw e, el1)) ∧
   to_String JNull el = (Normal "null", el) ∧
   (∀ b', to_String (JBoolean b') el
          = (Normal (if b' then "true" else "false"), el)) ∧
   (∀ n (safe : SafeInteger n),
      ∃ str, to_String (@JNumber n safe) el = (Normal str, el) ∧
             numeral_of n str) ∧
   to_String (JString s) el = (Normal s, el)) ∧
  ((∀ kept, innerHTML_setter el s = Normal kept →
      Dom.innerHtml el (Some (JString s)) = (Normal s, with_innerHTML kept el) ∧
      innerHTML (snd (Dom.innerHtml el (Some (JString s)))) = kept) ∧
   (∀ e, innerHTML_setter el s = Throw e →
      Dom.innerHtml el (Some (JString s)) = (Throw e, el)) ∧
   (Dom.checked el (Some (JBoolean b)) = (b, set_checked b el) ∧
    Host.checked (snd (Dom.checked el (Some (JBoolean b)))) = b) ∧
   (Dom.disabled el (Some (JBoolean b)) = (b, set_disabled b el) ∧
    Host.disabled (snd (Dom.disabled el (Some (JBoolean b)))) = b) ∧
   (valid_attribute_name name = true →
    ∃ el', Dom.attribute el name (Some (JString s)) = (Normal s, el') ∧
           getAttribute name el' = Some s)) ∧
  ((∀ s', x ≠ JString s') →
   Dom.innerHtml el (Some x) = (Normal (innerHTML el), el) ∧
   Dom.attribute el name (Some x)
   = (Normal (default "" (getAttribute name el)), el)) ∧
  ((∀ b', x ≠ JBoolean b') →
   Dom.checked el (Some x) = (Host.checked el, el) ∧
   Dom.disabled el (Some x) = (Host.disabled el, el)).
Proof.
  split; [|split; [|split; [|split]]].
  - repeat split. { simpl. by rewrite or_string_empty. }
    by apply attribute_read.
  - split; [intros str el1; apply text_value_converted|].
    split; [intros e el1; apply text_value_unconverted|].
    split; [done|]. split; [by intros []|]. split; [|done].
    intros n safe. exists (decimal n). split; [done | apply decimal_numeral].
  - destruct (innerHtml_written el s) as [Hkept Hthrow].
    split; [exact Hkept|]. split; [exact Hthrow|].
    split; [by destruct b|]. split; [by destruct b|].
    intros Hname. eexists. split; [by apply attribute_write|].
    apply getAttribute_written.
  - intros Hx. split; [by apply innerHtml_read|].
    apply attribute_read. intros s' [= ->]. by destruct (Hx s').
  - intros Hx. split.
    + apply checked_guard. intros [b' [= ->]]%typeof_boolean.
      by destruct (Hx b').
    + apply disabled_guard. intros [b' [= ->]]%typeof_boolean.
      by destruct (Hx b').
Qed.

Lemma accessors_read_write_witness :
  valid_attribute_name "data-x" = true ∧
  (∀ s', JNumber 7 ≠ JString s') ∧ (∀ b', JNumber 7 ≠ JBoolean b') ∧
  to_String (JNumber 7) Reference.field = (Normal "7", Reference.field) ∧
  value_setter Reference.field "7" = Normal "7" ∧
  innerHTML_setter Reference.field "v" = Normal "v" ∧
  Dom.text Reference.field None = (Normal "", Reference.field) ∧
  textContent (snd (Dom.text Reference.field (Some (JNumber 7)))) = "7" ∧
  Host.value (snd (Dom.value Reference.field (Some (JNumber 7)))) = "7" ∧
  innerHTML (snd (Dom.innerHtml Reference.field (Some (JString "v")))) = "v" ∧
  Host.checked (snd (Dom.checked Reference.field (Some (JBoolean true))))
  = true ∧
  (∃ el', Dom.attribute Reference.field "data-x" (Some (JString "v"))
          = (Normal "v", el') ∧ getAttribute "data-x" el' = Some "v") ∧
  Dom.attribute Reference.field "data-x" (Some (JNumber 7))
  = (Normal "", Reference.field) ∧
  Dom.checked Reference.field (Some (JNumber 7)) = (false, Reference.field).
Proof.
  assert (Hs : ∀ s', JNumber 7 ≠ JString s') by (intros s'; discriminate).
  assert (Hb : ∀ b', JNumber 7 ≠ JBoolean b') by (intros b'; discriminate).
  assert (Hname : valid_attribute_name "data-x" = true) by reflexivity.
  destruct (accessors_read_write Reference.field "data-x" (JNumber 7) "v" true)
    as ((Ht & _) & (Hw & _) & (Hi & _ & (_ & Hc) & _ & Ha) & Hr & Hg).
  destruct (Hw "7" Reference.field eq_refl) as (_ & Htext & Hvalue & _).
  destruct (Hvalue "7" eq_refl) as (_ & Hkept).
  destruct (Hi "v" eq_refl) as (_ & Hmarkup).
  split; [exact Hname|]. split; [exact Hs|]. split; [exact Hb|].
  split; [reflexivity|]. split; [reflexivity|]. split; [reflexivity|].
  split; [exact Ht|]. split; [exact Htext|]. split; [exact Hkept|].
  split; [exact Hmarkup|]. split; [exact Hc|].
  split; [exact (Ha Hname)|].
  split; [apply (Hr Hs) | apply (Hg Hb)].
Defined.

(** C5. [attribute(el, name)] is the empty string when the element has no
    such attribute, whatever was or was not set before; and once
    [attribute(el, name, v)] has set a string [v] under an attribute name,
    [attribute(el, name)] returns [v]. *)
Theorem attribute_get_set `{Platform} (el : Element) (name v : string) :
  (getAttribute name el = None →
   Dom.attribute el name None = (Normal "", el)) ∧
  (valid_attribute_name name = true →
   ∃ el', Dom.attribute el name (Some (JString v)) = (Normal v, el') ∧
          Dom.attribute el' name None = (Normal v, el')).
Proof.
  split.
  - intros Habsent. rewrite attribute_read by done. by rewrite Habsent.
  - intros Hname. eexists. split; [by apply attribute_write|].
    rewrite attribute_read by done. unfold getAttribute. simpl.
    by rewrite lookup_insert_eq.
Qed.

Lemma attribute_get_set_witness :
  getAttribute "data-x" Reference.para1 = None ∧
  valid_attribute_name "data-x" = true ∧
  Dom.attribute Reference.para1 "data-x" None
  = (Normal "", Reference.para1) ∧
  ∃ el', Dom.attribute Reference.para1 "data-x" (Some (JString "v"))
         = (Normal "v", el') ∧
         Dom.attribute el' "data-x" None = (Normal "v", el').
Proof.
  destruct (attribute_get_set Reference.para1 "data-x" "v") as (Hget & Hset).
  split; [reflexivity|]. split; [reflexivity|].
  split; [apply Hget; reflexivity | apply Hset; reflexivity].
Defined.

(** ** The class list *)

Section ClassList.

Lemma validate_one (c : string) :
  class_name c → validate_tokens [c] = Normal tt.
Proof. unfold class_name. simpl. by intros ->. Qed.

Lemma classList_add_one (c : string) (el : Element) :
  class_name c →
  classList_add [c] el
  = (Normal tt, with_classList (append_token (classList el) c) el).
Proof. intros Hc. unfold classList_add. by rewrite validate_one. Qed.

Lemma classList_remove_one (c : string) (el : Element) :
  class_name c →
  classList_remove [c] el
  = (Normal tt, with_classList (remove_token (classList el) c) el).
Proof. intros Hc. unfold classList_remove. by rewrite validate_one. Qed.

Lemma elem_of_append_token (l : list string) (c c' : string) :
  c' ∈ append_token l c ↔ c' = c ∨ c' ∈ l.
Proof.
  unfold append_token. case_decide as Hin.
  - split; [by right | by intros [->|]].
  - rewrite elem_of_app, list_elem_of_singleton. tauto.
Qed.

Lemma elem_of_remove_token (l : list string) (c c' : string) :
  c' ∈ remove_token l c ↔ c' ≠ c ∧ c' ∈ l.
Proof. unfold remove_token. by rewrite list_elem_of_filter. Qed.

Lemma contains_added (c c' : string) (el : Element) :
  contains c' (with_classList (append_token (classList el) c) el)
  = bool_decide (c' = c) || contains c' el.
Proof.
  unfold contains. simpl. rewrite <- bool_decide_or.
  apply bool_decide_ext, elem_of_append_token.
Qed.

Lemma contains_removed (c c' : string) (el : Element) :
  contains c' (with_classList (remove_token (classList el) c) el)
  = negb (bool_decide (c' = c)) && contains c' el.
Proof.
  unfold contains. simpl. rewrite <- bool_decide_not, <- bool_decide_and.
  apply bool_decide_ext, elem_of_remove_token.
Qed.

(** One call of [toggleClass] flips the membership of its class and of no
    other. *)
Lemma toggleClass_flips (el : Element) (c : string) :
  class_name c →
  ∃ el', Dom.toggleClass el c = (Normal tt, el') ∧
         contains c el' = negb (contains c el) ∧
         ∀ c', c' ≠ c → contains c' el' = contains c' el.
Proof.
  intros Hc. unfold Dom.toggleClass.
  destruct (contains c el) eqn:Hhas.
  - rewrite classList_remove_one by done. eexists. split; [done|]. split.
    + rewrite contains_removed. by rewrite bool_decide_eq_true_2.
    + intros c' Hne. rewrite contains_removed.
      by rewrite bool_decide_eq_false_2.
  - rewrite classList_add_one by done. eexists. split; [done|]. split.
    + rewrite contains_added. by rewrite bool_decide_eq_true_2.
    + intros c' Hne. rewrite contains_added.
      by rewrite bool_decide_eq_false_2.
Qed.

End ClassList.

(** C6. For a class name [c], [toggleClass(el, c)] adds [c] when the
    element lacks it and removes it when the element has it, touching no
    other class; two calls in a row give back the class membership the
    element started with. *)
Theorem toggleClass_round_trip (el : Element) (c : string) :
  class_name c →
  ∃ el1 el2,
    Dom.toggleClass el c = (Normal tt, el1) ∧
    Dom.toggleClass el1 c = (Normal tt, el2) ∧
    (contains c el = false → contains c el1 = true) ∧
    (contains c el = true → contains c el1 = false) ∧
    (∀ c', c' ≠ c → contains c' el1 = contains c' el) ∧
    (∀ c', contains c' el2 = contains c' el).
Proof.
  intros Hc.
  destruct (toggleClass_flips el c Hc) as (el1 & H1 & Hflip1 & Hkeep1).
  destruct (toggleClass_flips el1 c Hc) as (el2 & H2 & Hflip2 & Hkeep2).
  exists el1, el2. repeat split; try done.
  - intros Hno. by rewrite Hflip1, Hno.
  - intros Hyes. by rewrite Hflip1, Hyes.
  - intros c'. destruct (decide (c' = c)) as [->|Hne].
    + rewrite Hflip2, Hflip1. apply negb_involutive.
    + by rewrite Hkeep2, Hkeep1.
Qed.

Lemma toggleClass_round_trip_witness :
  class_name "a" ∧
  ∃ el1 el2,
    Dom.toggleClass Reference.para1 "a" = (Normal tt, el1) ∧
    Dom.toggleClass el1 "a" = (Normal tt, el2) ∧
    contains "a" el1 = true ∧
    contains "a" el2 = false ∧ contains "x" el2 = true.
Proof.
  split; [reflexivity|].
  destruct (toggleClass_round_trip Reference.para1 "a" eq_refl)
    as (el1 & el2 & H1 & H2 & Hadd & _ & _ & Hback).
  exists el1, el2. split; [exact H1|]. split; [exact H2|].
  split; [by apply Hadd|]. split; by rewrite Hback.
Defined.

(** What is not a class name is refused, and a refusal in the second step
    of [swapClass] comes after the first step has removed its class. *)
Example class_list_refusals :
  Dom.toggleClass Reference.para2 "" = (Throw SyntaxError, Reference.para2) ∧
  Dom.toggleClass Reference.para2 "a b"
  = (Throw InvalidCharacterError, Reference.para2) ∧
  Dom.swapClass Reference.para2 "x" ""
  = (Throw SyntaxError, with_classList ["y"] Reference.para2).
Proof. repeat split. Qed.

(** C7, as stated, fails when the two names are the same class: it is
    removed, then added, and so is on the element afterwards. *)
Lemma swapClass_same_name :
  Dom.swapClass Reference.para1 "x" "x" = (Normal tt, Reference.para1) ∧
  contains "x" Reference.para1 = true.
Proof. split; reflexivity. Qed.

(** C7, amended.  For class names [old] and [new], [swapClass(el, old,
    new)] is the removal of [old] followed by the addition of [new]; the
    class list afterwards contains [new], whether or not [old] was there,
    and does not contain [old] when [old] and [new] are different
    names. *)
Theorem swapClass_removes_then_adds (el : Element) (old new : string) :
  class_name old → class_name new →
  ∃ el1 el2,
    classList_remove [old] el = (Normal tt, el1) ∧
    classList_add [new] el1 = (Normal tt, el2) ∧
    Dom.swapClass el old new = (Normal tt, el2) ∧
    contains old el1 = false ∧
    contains new el2 = true ∧
    (old ≠ new → contains old el2 = false).
Proof.
  intros Hold Hnew. unfold Dom.swapClass.
  rewrite classList_remove_one by done. simpl.
  rewrite classList_add_one by done.
  exists (with_classList (remove_token (classList el) old) el).
  eexists. split; [done|]. split; [by apply classList_add_one|].
  split; [done|]. split; [|split].
  - rewrite contains_removed. by rewrite bool_decide_eq_true_2.
  - rewrite contains_added. by rewrite bool_decide_eq_true_2.
  - intros Hne. rewrite contains_added, contains_removed.
    rewrite bool_decide_eq_false_2 by done.
    by rewrite bool_decide_eq_true_2.
Qed.

Lemma swapClass_removes_then_adds_witness :
  class_name "x" ∧ class_name "z" ∧
  ∃ el2, Dom.swapClass Reference.para2 "x" "z" = (Normal tt, el2) ∧
         classList el2 = ["y"; "z"] ∧
         contains "z" el2 = true ∧ contains "x" el2 = false.
Proof.
  split; [reflexivity|]. split; [reflexivity|].
  destruct (swapClass_removes_then_adds Reference.para2 "x" "z"
              eq_refl eq_refl)
    as (el1 & el2 & H1 & H2 & Hswap & _ & Hnew & Hold).
  exists el2. split; [exact Hswap|].
  split; [by injection H1 as <-; injection H2 as <-|].
  split; [exact Hnew | by apply Hold].
Defined.

(** * Further properties of the helpers *)

(** ** Variadic class-list calls *)

Section Tokens.

Lemma validate_tokens_Forall (cs : list string) :
  validate_tokens cs = Normal tt ↔ Forall class_name cs.
Proof.
  induction cs as [|c cs IH]; simpl.
  - split; [constructor | done].
  - unfold class_name at 1. rewrite Forall_cons, <- IH. unfold class_name.
    destruct (validate_token c) as [[]|e]; simpl; [tauto|].
    split; [done | by intros [? _]].
Qed.

Lemma validate_tokens_refuses (cs : list string) :
  ¬ Forall class_name cs → ∃ e, validate_tokens cs = Throw e.
Proof.
  intros Hbad. destruct (validate_tokens cs) as [[]|e] eqn:Hv; [|by exists e].
  by apply validate_tokens_Forall in Hv.
Qed.

Lemma filter_keeps_all (P : string → Prop) `{∀ t, Decision (P t)}
  (l : list string) :
  (∀ t, t ∈ l → P t) → filter P l = l.
Proof.
  induction l as [|t l IH]; intros Hall; [done|].
  rewrite filter_cons_True by (apply Hall; left).
  f_equal. apply IH. intros t' Ht'. apply Hall. by right.
Qed.

Lemma filter_keeps_none (P : string → Prop) `{∀ t, Decision (P t)}
  (l : list string) :
  (∀ t, t ∈ l → ¬ P t) → filter P l = [].
Proof.
  induction l as [|t l IH]; intros Hnone; [done|].
  rewrite filter_cons_False by (apply Hnone; left).
  apply IH. intros t' Ht'. apply Hnone. by right.
Qed.

Lemma elem_of_foldl_append (cs l : list string) (c : string) :
  c ∈ foldl append_token l cs ↔ c ∈ cs ∨ c ∈ l.
Proof.
  revert l. induction cs as [|c0 cs IH]; intros l; simpl.
  - rewrite elem_of_nil. tauto.
  - rewrite IH, elem_of_append_token, elem_of_cons. tauto.
Qed.

Lemma foldl_remove_filter (cs l : list string) :
  foldl remove_token l cs = filter (fun t => t ∉ cs) l.
Proof.
  revert l. induction cs as [|c0 cs IH]; intros l; simpl.
  - symmetry. apply filter_keeps_all. intros t _. apply not_elem_of_nil.
  - rewrite IH. unfold remove_token. rewrite list_filter_filter.
    apply list_filter_iff. intros t. rewrite not_elem_of_cons. tauto.
Qed.

Lemma elem_of_foldl_remove (cs l : list string) (c : string) :
  c ∈ foldl remove_token l cs ↔ (c ∉ cs) ∧ c ∈ l.
Proof. by rewrite foldl_remove_filter, list_elem_of_filter. Qed.

(** Adding appends: what was there stays in front, in its order, and what
    comes behind is among the names given. *)
Lemma foldl_append_extends (cs l : list string) :
  ∃ extra, foldl append_token l cs = l ++ extra ∧ ∀ c, c ∈ extra → c ∈ cs.
Proof.
  revert l. induction cs as [|c0 cs IH]; intros l; simpl.
  - exists []. by rewrite app_nil_r.
  - destruct (IH (append_token l c0)) as (extra & -> & Hextra).
    unfold append_token. case_decide.
    + exists extra. split; [done|]. intros c Hc. right. by apply Hextra.
    + exists (c0 :: extra). rewrite <- app_assoc. split; [done|].
      intros c [->|Hc]%elem_of_cons; [left | right; by apply Hextra].
Qed.

Lemma foldl_append_present (cs l : list string) :
  (∀ c, c ∈ cs → c ∈ l) → foldl append_token l cs = l.
Proof.
  revert l. induction cs as [|c0 cs IH]; intros l Hall; simpl; [done|].
  unfold append_token. rewrite decide_True by (apply Hall; left).
  apply IH. intros c Hc. apply Hall. by right.
Qed.

Lemma NoDup_append_token (l : list string) (c : string) :
  NoDup l → NoDup (append_token l c).
Proof.
  intros Hl. unfold append_token. case_decide as Hin; [done|].
  apply NoDup_app. split; [done|]. split; [|apply NoDup_singleton].
  intros x Hx ->%list_elem_of_singleton. done.
Qed.

Lemma NoDup_foldl_append (cs l : list string) :
  NoDup l → NoDup (foldl append_token l cs).
Proof.
  revert l. induction cs as [|c0 cs IH]; intros l Hl; simpl; [done|].
  by apply IH, NoDup_append_token.
Qed.

Lemma NoDup_foldl_remove (cs l : list string) :
  NoDup l → NoDup (foldl remove_token l cs).
Proof. intros Hl. rewrite foldl_remove_filter. by apply NoDup_filter. Qed.

Lemma classList_add_accepts (cs : list string) (el : Element) :
  Forall class_name cs →
  classList_add cs el
  = (Normal tt, with_classList (foldl append_token (classList el) cs) el).
Proof.
  intros Hcs%validate_tokens_Forall. unfold classList_add. by rewrite Hcs.
Qed.

Lemma classList_remove_accepts (cs : list string) (el : Element) :
  Forall class_name cs →
  classList_remove cs el
  = (Normal tt, with_classList (foldl remove_token (classList el) cs) el).
Proof.
  intros Hcs%validate_tokens_Forall. unfold classList_remove. by rewrite Hcs.
Qed.

Lemma classList_add_refuses (cs : list string) (el : Element) e :
  validate_tokens cs = Throw e → classList_add cs el = (Throw e, el).
Proof. intros Hv. unfold classList_add. by rewrite Hv. Qed.

Lemma classList_remove_refuses (cs : list string) (el : Element) e :
  validate_tokens cs = Throw e → classList_remove cs el = (Throw e, el).
Proof. intros Hv. unfold classList_remove. by rewrite Hv. Qed.

Lemma NoDup_classList_add (cs : list string) (el : Element) :
  NoDup (classList el) → NoDup (classList (snd (classList_add cs el))).
Proof.
  intros Hl. unfold classList_add. destruct (validate_tokens cs); simpl;
    [by apply NoDup_foldl_append | done].
Qed.

Lemma NoDup_classList_remove (cs : list string) (el : Element) :
  NoDup (classList el) → NoDup (classList (snd (classList_remove cs el))).
Proof.
  intros Hl. unfold classList_remove. destruct (validate_tokens cs); simpl;
    [by apply NoDup_foldl_remove | done].
Qed.

End Tokens.

(** X1. [addClass] with class names: afterwards a class is on the element
    exactly when it is one of the names given or was there before; the
    classes that were there keep their places at the front of the list. *)
Theorem addClass_membership (el : Element) (cs : list string) :
  Forall class_name cs →
  ∃ el', Dom.addClass el cs = (Normal tt, el') ∧
         (∀ c, contains c el' = bool_decide (c ∈ cs) || contains c el) ∧
         classList el `prefix_of` classList el'.
Proof.
  intros Hcs. unfold Dom.addClass. rewrite classList_add_accepts by done.
  eexists. split; [done|]. split.
  - intros c. unfold contains. simpl. rewrite <- bool_decide_or.
    apply bool_decide_ext, elem_of_foldl_append.
  - simpl. destruct (foldl_append_extends cs (classList el))
      as (extra & -> & _). by exists extra.
Qed.

Lemma addClass_membership_witness :
  Forall class_name ["y"; "z"; "y"] ∧
  ∃ el', Dom.addClass Reference.para1 ["y"; "z"; "y"] = (Normal tt, el') ∧
         classList el' = ["x"; "y"; "z"] ∧ contains "z" el' = true.
Proof.
  assert (Hcs : Forall class_name ["y"; "z"; "y"])
    by (repeat constructor).
  split; [exact Hcs|].
  destruct (addClass_membership Reference.para1 _ Hcs) as (el' & Hadd & Hin & _).
  exists el'. split; [exact Hadd|].
  split; [by injection Hadd as <- | by rewrite Hin].
Defined.

(** X2. [removeClass] with class names: afterwards a class is on the
    element exactly when it was there before and is none of the names
    given; the classes left keep their order. *)
Theorem removeClass_membership (el : Element) (cs : list string) :
  Forall class_name cs →
  ∃ el', Dom.removeClass el cs = (Normal tt, el') ∧
         (∀ c, contains c el'
               = negb (bool_decide (c ∈ cs)) && contains c el) ∧
         classList el' `sublist_of` classList el.
Proof.
  intros Hcs. unfold Dom.removeClass. rewrite classList_remove_accepts by done.
  eexists. split; [done|]. split.
  - intros c. unfold contains. simpl.
    rewrite <- bool_decide_not, <- bool_decide_and.
    apply bool_decide_ext, elem_of_foldl_remove.
  - simpl. rewrite foldl_remove_filter. apply sublist_filter.
Qed.

Lemma removeClass_membership_witness :
  Forall class_name ["x"; "q"] ∧
  ∃ el', Dom.removeClass Reference.para2 ["x"; "q"] = (Normal tt, el') ∧
         classList el' = ["y"] ∧ contains "x" el' = false.
Proof.
  assert (Hcs : Forall class_name ["x"; "q"]) by (repeat constructor).
  split; [exact Hcs|].
  destruct (removeClass_membership Reference.para2 _ Hcs)
    as (el' & Hrm & Hin & _).
  exists el'. split; [exact Hrm|].
  split; [by injection Hrm as <- | by rewrite Hin].
Defined.

(** X3. [ensureClass] with class names: afterwards each name given is on
    the element exactly when the condition is true, and every other class
    is there exactly when it was before. *)
Theorem ensureClass_sets_membership (el : Element) (cond : bool)
  (cs : list string) :
  Forall class_name cs →
  ∃ el', Dom.ensureClass el cond cs = (Normal tt, el') ∧
         (∀ c, c ∈ cs → contains c el' = cond) ∧
         (∀ c, c ∉ cs → contains c el' = contains c el).
Proof.
  intros Hcs. unfold Dom.ensureClass. destruct cond.
  - rewrite classList_add_accepts by done. eexists. split; [done|].
    unfold contains. simpl. split; intros c Hc.
    + apply bool_decide_eq_true_2, elem_of_foldl_append. by left.
    + apply bool_decide_ext. rewrite elem_of_foldl_append. tauto.
  - rewrite classList_remove_accepts by done. eexists. split; [done|].
    unfold contains. simpl. split; intros c Hc.
    + apply bool_decide_eq_false_2. rewrite elem_of_foldl_remove. tauto.
    + apply bool_decide_ext. rewrite elem_of_foldl_remove. tauto.
Qed.

Lemma ensureClass_sets_membership_witness :
  Forall class_name ["x"; "z"] ∧
  (∃ el', Dom.ensureClass Reference.para2 true ["x"; "z"] = (Normal tt, el') ∧
          contains "x" el' = true ∧ contains "z" el' = true ∧
          contains "y" el' = true) ∧
  (∃ el', Dom.ensureClass Reference.para2 false ["x"; "z"] = (Normal tt, el') ∧
          contains "x" el' = false ∧ contains "z" el' = false ∧
          contains "y" el' = true).
Proof.
  assert (Hcs : Forall class_name ["x"; "z"]) by (repeat constructor).
  assert (Hx : "x" ∈ ["x"; "z"]) by (by left).
  assert (Hz : "z" ∈ ["x"; "z"]) by (right; by left).
  assert (Hy : "y" ∉ ["x"; "z"]).
  { intros [?|[?|?%elem_of_nil]%elem_of_cons]%elem_of_cons; done. }
  split; [exact Hcs|]. split.
  - destruct (ensureClass_sets_membership Reference.para2 true _ Hcs)
      as (el' & He & Hin & Hout).
    exists el'. split; [exact He|].
    split; [by apply Hin|]. split; [by apply Hin | by rewrite Hout].
  - destruct (ensureClass_sets_membership Reference.para2 false _ Hcs)
      as (el' & He & Hin & Hout).
    exists el'. split; [exact He|].
    split; [by apply Hin|]. split; [by apply Hin | by rewrite Hout].
Defined.

(** X4. [addClass] and [removeClass] are idempotent: the same call a
    second time completes and leaves the element exactly as the first
    call left it. *)
Theorem addClass_removeClass_idempotent (el : Element) (cs : list string) :
  Forall class_name cs →
  (∃ el', Dom.addClass el cs = (Normal tt, el') ∧
          Dom.addClass el' cs = (Normal tt, el')) ∧
  (∃ el', Dom.removeClass el cs = (Normal tt, el') ∧
          Dom.removeClass el' cs = (Normal tt, el')).
Proof.
  intros Hcs. unfold Dom.addClass, Dom.removeClass. split.
  - eexists. split; [by apply classList_add_accepts|].
    rewrite classList_add_accepts by done. simpl.
    rewrite (foldl_append_present cs (foldl _ _ _)); [done|].
    intros c Hc. apply elem_of_foldl_append. by left.
  - eexists. split; [by apply classList_remove_accepts|].
    rewrite classList_remove_accepts by done. simpl.
    rewrite (foldl_remove_filter cs (foldl _ _ _)).
    rewrite filter_keeps_all; [done|].
    intros t Ht%elem_of_foldl_remove. tauto.
Qed.

Lemma addClass_removeClass_idempotent_witness :
  Forall class_name ["x"; "z"] ∧
  Dom.addClass (snd (Dom.addClass Reference.para2 ["x"; "z"])) ["x"; "z"]
  = Dom.addClass Reference.para2 ["x"; "z"] ∧
  Dom.removeClass (snd (Dom.removeClass Reference.para2 ["x"; "z"]))
    ["x"; "z"]
  = Dom.removeClass Reference.para2 ["x"; "z"].
Proof.
  assert (Hcs : Forall class_name ["x"; "z"]) by (repeat constructor).
  split; [exact Hcs|].
  destruct (addClass_removeClass_idempotent Reference.para2 _ Hcs)
    as ((ea & Ha1 & Ha2) & (er & Hr1 & Hr2)).
  split.
  - rewrite Ha1. simpl. by rewrite Ha2.
  - rewrite Hr1. simpl. by rewrite Hr2.
Defined.

(** X5. [removeClass] undoes [addClass]: when none of the class names
    given is on the element, adding them and then removing them gives the
    class list back as it was, order included. *)
Theorem addClass_then_removeClass (el : Element) (cs : list string) :
  Forall class_name cs →
  (∀ c, c ∈ cs → contains c el = false) →
  ∃ el1 el2, Dom.addClass el cs = (Normal tt, el1) ∧
             Dom.removeClass el1 cs = (Normal tt, el2) ∧
             classList el2 = classList el.
Proof.
  intros Hcs Hfresh. unfold Dom.addClass, Dom.removeClass.
  do 2 eexists. split; [by apply classList_add_accepts|].
  split; [by apply classList_remove_accepts|]. simpl.
  rewrite foldl_remove_filter.
  destruct (foldl_append_extends cs (classList el)) as (extra & -> & Hextra).
  rewrite filter_app.
  rewrite (filter_keeps_none _ extra) by (intros t Ht Hno; by apply Hno, Hextra).
  rewrite app_nil_r. apply filter_keeps_all. intros t Ht Hin.
  specialize (Hfresh t Hin). unfold contains in Hfresh.
  by apply bool_decide_eq_false_1 in Hfresh.
Qed.

Lemma addClass_then_removeClass_witness :
  Forall class_name ["q"; "z"] ∧
  (∀ c, c ∈ ["q"; "z"] → contains c Reference.para2 = false) ∧
  ∃ el1 el2, Dom.addClass Reference.para2 ["q"; "z"] = (Normal tt, el1) ∧
             classList el1 = ["x"; "y"; "q"; "z"] ∧
             Dom.removeClass el1 ["q"; "z"] = (Normal tt, el2) ∧
             classList el2 = ["x"; "y"].
Proof.
  assert (Hcs : Forall class_name ["q"; "z"]) by (repeat constructor).
  assert (Hfresh : ∀ c, c ∈ ["q"; "z"] → contains c Reference.para2 = false).
  { intros c [->|[->|?%elem_of_nil]%elem_of_cons]%elem_of_cons; done. }
  split; [exact Hcs|]. split; [exact Hfresh|].
  destruct (addClass_then_removeClass Reference.para2 _ Hcs Hfresh)
    as (el1 & el2 & H1 & H2 & Hback).
  exists el1, el2. split; [exact H1|].
  split; [by injection H1 as <-|]. split; [exact H2 | exact Hback].
Defined.

(** X6. The class list stays free of duplicates: if it is before a call of
    [addClass], [removeClass], [ensureClass], [toggleClass] or
    [swapClass], it is afterwards, whatever the arguments and whether the
    call completes or throws. *)
Theorem class_helpers_keep_NoDup (el : Element) (cs : list string)
  (cond : bool) (c old new : string) :
  NoDup (classList el) →
  NoDup (classList (snd (Dom.addClass el cs))) ∧
  NoDup (classList (snd (Dom.removeClass el cs))) ∧
  NoDup (classList (snd (Dom.ensureClass el cond cs))) ∧
  NoDup (classList (snd (Dom.toggleClass el c))) ∧
  NoDup (classList (snd (Dom.swapClass el old new))).
Proof.
  intros Hl. repeat apply conj.
  - by apply NoDup_classList_add.
  - by apply NoDup_classList_remove.
  - unfold Dom.ensureClass. destruct cond;
      [by apply NoDup_classList_add | by apply NoDup_classList_remove].
  - unfold Dom.toggleClass. destruct (contains c el);
      [by apply NoDup_classList_remove | by apply NoDup_classList_add].
  - unfold Dom.swapClass.
    pose proof (NoDup_classList_remove [old] el Hl) as Hrm.
    destruct (classList_remove [old] el) as [[[]|e] el1]; simpl in *;
      [by apply NoDup_classList_add | done].
Qed.

Lemma class_helpers_keep_NoDup_witness :
  NoDup (classList Reference.para2) ∧
  classList (snd (Dom.addClass Reference.para2 ["y"; "z"; "z"]))
  = ["x"; "y"; "z"] ∧
  NoDup (classList (snd (Dom.addClass Reference.para2 ["y"; "z"; "z"]))) ∧
  NoDup (classList (snd (Dom.swapClass Reference.para2 "x" "y"))).
Proof.
  assert (Hl : NoDup (classList Reference.para2)).
  { apply (bool_decide_unpack _). reflexivity. }
  destruct (class_helpers_keep_NoDup Reference.para2 ["y"; "z"; "z"]
              true "x" "x" "y" Hl) as (Ha & _ & _ & _ & Hs).
  split; [exact Hl|]. split; [reflexivity|]. split; [exact Ha | exact Hs].
Defined.


Lemma not_class_name_refused (c : string) :
  ¬ class_name c → ∃ e, validate_tokens [c] = Throw e.
Proof.
  intros Hc. apply validate_tokens_refuses.
  intros Hall. apply Hc. exact (Forall_inv Hall).
Qed.



(** X8. [swapClass] does not undo its first step.  When the class to
    remove is no class name, the call throws and nothing has changed (the
    class to add is not added).  When the class to remove is a class name
    and the class to add is not, the call throws after the class to remove
    has been taken off the element. *)
Theorem swapClass_failure (el : Element) (old new : string) :
  (¬ class_name old → ∃ e, Dom.swapClass el old new = (Throw e, el)) ∧
  (class_name old → ¬ class_name new →
   ∃ e el1, classList_remove [old] el = (Normal tt, el1) ∧
            Dom.swapClass el old new = (Throw e, el1) ∧
            contains old el1 = false).
Proof.
  unfold Dom.swapClass. split.
  - intros (e & He)%not_class_name_refused. exists e.
    by rewrite (classList_remove_refuses _ _ _ He).
  - intros Hold (e & He)%not_class_name_refused. exists e.
    rewrite classList_remove_one by done. eexists. split; [done|]. simpl.
    rewrite (classList_add_refuses _ _ _ He). split; [done|].
    rewrite contains_removed. by rewrite bool_decide_eq_true_2.
Qed.

Lemma swapClass_failure_witness :
  ¬ class_name "a b" ∧ class_name "x" ∧
  Dom.swapClass Reference.para2 "a b" "z"
  = (Throw InvalidCharacterError, Reference.para2) ∧
  ∃ el1, Dom.swapClass Reference.para2 "x" "a b"
         = (Throw InvalidCharacterError, el1) ∧ classList el1 = ["y"].
Proof.
  assert (Hbad : ¬ class_name "a b") by (intros H; discriminate H).
  assert (Hok : class_name "x") by reflexivity.
  destruct (swapClass_failure Reference.para2 "a b" "z") as (H1 & _).
  destruct (swapClass_failure Reference.para2 "x" "a b") as (_ & H2).
  destruct (H1 Hbad) as (e & He).
  destruct (H2 Hok Hbad) as (e' & el1 & Hrm & Hswap & _).
  split; [exact Hbad|]. split; [exact Hok|]. split.
  - rewrite He. vm_compute in He. congruence.
  - exists el1. split; [|by injection Hrm as <-].
    rewrite Hswap. injection Hrm as <-. vm_compute in Hswap. congruence.
Defined.

(** X9. [swapClass] with class names touches no third class: a class other
    than the two named is on the element afterwards exactly when it was
    before; and when the class to remove is absent and the class to add
    already present, the class list is unchanged. *)
Theorem swapClass_frame (el : Element) (old new : string) :
  class_name old → class_name new →
  ∃ el', Dom.swapClass el old new = (Normal tt, el') ∧
         (∀ c, c ≠ old → c ≠ new → contains c el' = contains c el) ∧
         (contains old el = false → contains new el = true →
          classList el' = classList el).
Proof.
  intros Hold Hnew. unfold Dom.swapClass.
  rewrite classList_remove_one by done. simpl.
  rewrite classList_add_one by done. eexists. split; [done|]. split.
  - intros c Ho Hn. rewrite contains_added, contains_removed.
    by rewrite !bool_decide_eq_false_2.
  - unfold contains. intros Hno%bool_decide_eq_false_1 Hyes%bool_decide_eq_true_1.
    simpl. unfold remove_token.
    rewrite filter_keeps_all by (intros t Ht ->; done).
    unfold append_token. by rewrite decide_True.
Qed.

Lemma swapClass_frame_witness :
  class_name "x" ∧ class_name "z" ∧
  ∃ el', Dom.swapClass Reference.para2 "x" "z" = (Normal tt, el') ∧
         contains "y" el' = true ∧ contains "q" el' = false.
Proof.
  destruct (swapClass_frame Reference.para2 "x" "z" eq_refl eq_refl)
    as (el' & Hswap & Hframe & _).
  split; [reflexivity|]. split; [reflexivity|].
  exists el'. split; [exact Hswap|]. split; by rewrite Hframe.
Defined.

(** ** Attributes *)

(** X10. Setting one attribute leaves alone the attributes stored under
    other names, and the last value set is the one read.  The name an
    attribute is stored under is the name given, in lower case on an HTML
    element of an HTML document.  After [attribute(el, name, v)] under an
    accepted name, [attribute(el, other)] returns what it returned before
    when [other] is stored under a different name, and [v] when it is
    stored under the same name (as ["data-x"] and ["DATA-X"] are on such
    an element); a second [attribute(el, name, w)] makes
    [attribute(el, name)] return [w]. *)
Theorem attribute_frame_and_overwrite `{Platform} (el : Element)
  (name other v w : string) :
  valid_attribute_name name = true →
  ∃ el1 el2,
    Dom.attribute el name (Some (JString v)) = (Normal v, el1) ∧
    (attribute_key el other ≠ attribute_key el name →
     fst (Dom.attribute el1 other None) = fst (Dom.attribute el other None)) ∧
    (attribute_key el other = attribute_key el name →
     fst (Dom.attribute el1 other None) = Normal v) ∧
    Dom.attribute el1 name (Some (JString w)) = (Normal w, el2) ∧
    Dom.attribute el2 name None = (Normal w, el2).
Proof.
  intros Hname. do 2 eexists.
  split; [by apply attribute_write|].
  split; [|split; [|split; [by apply attribute_write|]]].
  - intros Hne. rewrite !attribute_read by done. unfold getAttribute.
    change (attribute_key (with_attributes _ el) other)
      with (attribute_key el other).
    simpl. by rewrite lookup_insert_ne.
  - intros Heq. rewrite attribute_read by done. unfold getAttribute.
    change (attribute_key (with_attributes _ el) other)
      with (attribute_key el other).
    simpl. by rewrite Heq, lookup_insert_eq.
  - rewrite attribute_read by done. by rewrite getAttribute_written.
Qed.

Lemma attribute_frame_and_overwrite_witness :
  valid_attribute_name "DATA-X" = true ∧
  attribute_key Reference.box "id" ≠ attribute_key Reference.box "DATA-X" ∧
  attribute_key Reference.box "data-x" = attribute_key Reference.box "DATA-X" ∧
  ∃ el1 el2,
    Dom.attribute Reference.box "DATA-X" (Some (JString "v"))
    = (Normal "v", el1) ∧
    fst (Dom.attribute el1 "id" None) = Normal "main" ∧
    fst (Dom.attribute el1 "data-x" None) = Normal "v" ∧
    Dom.attribute el1 "DATA-X" (Some (JString "w")) = (Normal "w", el2) ∧
    Dom.attribute el2 "DATA-X" None = (Normal "w", el2).
Proof.
  assert (Hname : valid_attribute_name "DATA-X" = true) by reflexivity.
  assert (Hne : attribute_key Reference.box "id"
                ≠ attribute_key Reference.box "DATA-X") by discriminate.
  assert (Heq : attribute_key Reference.box "data-x"
                = attribute_key Reference.box "DATA-X") by reflexivity.
  split; [exact Hname|]. split; [exact Hne|]. split; [exact Heq|].
  destruct (attribute_frame_and_overwrite Reference.box "DATA-X" "id" "v" "w"
              Hname) as (el1 & el2 & H1 & Hother & _ & H2 & H3).
  destruct (attribute_frame_and_overwrite Reference.box "DATA-X" "data-x"
              "v" "w" Hname) as (el1' & el2' & H1' & _ & Hsame & _).
  rewrite H1 in H1'. injection H1' as <-.
  exists el1, el2. split; [exact H1|].
  split; [by rewrite (Hother Hne)|]. split; [exact (Hsame Heq)|].
  split; [exact H2 | exact H3].
Defined.

(** X11. The value [attribute] returns does not tell an attribute set to
    the empty string from an absent one: a read returns [""] exactly when
    the element has no such attribute or has it with the empty value. *)
Theorem attribute_empty_or_absent `{Platform} (el : Element) (name : string) :
  fst (Dom.attribute el name None) = Normal ""
  ↔ getAttribute name el = None ∨ getAttribute name el = Some "".
Proof.
  rewrite attribute_read by done. simpl.
  destruct (getAttribute name el) as [s|]; simpl; split.
  - intros [= ->]. by right.
  - by intros [|[= ->]].
  - by left.
  - done.
Qed.

(** X12. [attribute] with a string to set under a name the platform
    refuses throws [InvalidCharacterError]: nothing is set and no value is
    returned; the same name with no string to set is read without
    exception. *)
Theorem attribute_refused_name `{Platform} (el : Element) (name v : string) :
  valid_attribute_name name = false →
  Dom.attribute el name (Some (JString v)) = (Throw InvalidCharacterError, el) ∧
  completes (fst (Dom.attribute el name None)) ∧
  snd (Dom.attribute el name None) = el.
Proof.
  intros Hname. split.
  - unfold Dom.attribute, setAttribute. by rewrite Hname.
  - rewrite attribute_read by done. split; [by eexists | done].
Qed.

Lemma attribute_refused_name_witness :
  valid_attribute_name "a b" = false ∧
  Dom.attribute Reference.box "a b" (Some (JString "v"))
  = (Throw InvalidCharacterError, Reference.box) ∧
  completes (fst (Dom.attribute Reference.box "a b" None)).
Proof.
  assert (Hname : valid_attribute_name "a b" = false) by reflexivity.
  split; [exact Hname|].
  destruct (attribute_refused_name Reference.box "a b" "v" Hname)
    as (Hset & Hget & _).
  split; [exact Hset | exact Hget].
Defined.

(** ** Form controls and visibility *)

(** X13. [checked] and [disabled] keep the last boolean written: a read
    after a write returns it, a second write replaces it, and a later call
    with a supplied argument that is not a boolean (0, the string
    ["false"], [null]) returns it and changes nothing. *)
Theorem checked_disabled_last_boolean (el : Element) (b b' : bool)
  (x : Value) :
  (∀ b0, x ≠ JBoolean b0) →
  let c1 := snd (Dom.checked el (Some (JBoolean b))) in
  let d1 := snd (Dom.disabled el (Some (JBoolean b))) in
  Dom.checked c1 None = (b, c1) ∧
  Dom.checked c1 (Some x) = (b, c1) ∧
  Dom.checked c1 (Some (JBoolean b'))
  = Dom.checked el (Some (JBoolean b')) ∧
  Dom.disabled d1 None = (b, d1) ∧
  Dom.disabled d1 (Some x) = (b, d1) ∧
  Dom.disabled d1 (Some (JBoolean b'))
  = Dom.disabled el (Some (JBoolean b')).
Proof.
  intros Hx c1 d1. repeat apply conj; try reflexivity.
  - rewrite checked_guard; [done|].
    intros [b0 [= ->]]%typeof_boolean. by apply (Hx b0).
  - rewrite disabled_guard; [done|].
    intros [b0 [= ->]]%typeof_boolean. by apply (Hx b0).
Qed.

Lemma checked_disabled_last_boolean_witness :
  (∀ b0, JString "false" ≠ JBoolean b0) ∧
  fst (Dom.checked (snd (Dom.checked Reference.field (Some (JBoolean true))))
         (Some (JString "false"))) = true ∧
  fst (Dom.disabled (snd (Dom.disabled Reference.field (Some (JBoolean true))))
         (Some (JString "false"))) = true.
Proof.
  assert (Hx : ∀ b0, JString "false" ≠ JBoolean b0) by (intros b0; discriminate).
  split; [exact Hx|].
  destruct (checked_disabled_last_boolean Reference.field true false _ Hx)
    as (_ & Hc & _ & _ & Hd & _).
  split; [by rewrite Hc | by rewrite Hd].
Defined.

(** X14. [show] and [hide] are [visible] with [true] and [false]: they
    leave the element as [visible(el, true)] and [visible(el, false)] do;
    of two calls the second decides; and [visible] with a supplied
    argument that is not a boolean (0, [null], the string ["none"]) sets
    nothing and returns the current state. *)
Theorem show_hide_visible (el : Element) (x : Value) :
  (∀ b, x ≠ JBoolean b) →
  snd (Dom.visible el (Some (JBoolean true))) = Dom.show el ∧
  snd (Dom.visible el (Some (JBoolean false))) = Dom.hide el ∧
  Dom.show (Dom.hide el) = Dom.show el ∧
  Dom.hide (Dom.show el) = Dom.hide el ∧
  Dom.show (Dom.show el) = Dom.show el ∧
  Dom.hide (Dom.hide el) = Dom.hide el ∧
  Dom.visible el (Some x) = Dom.visible el None ∧
  Dom.visible (Dom.hide el) (Some x) = (false, Dom.hide el) ∧
  Dom.visible (Dom.show el) (Some x) = (true, Dom.show el).
Proof.
  intros Hx.
  assert (Hty : typeof (Some x) ≠ "boolean").
  { intros [b [= ->]]%typeof_boolean. by apply (Hx b). }
  repeat apply conj; try reflexivity; by rewrite visible_guard.
Qed.

Lemma show_hide_visible_witness :
  (∀ b, JNumber 0 ≠ JBoolean b) ∧
  Dom.visible (Dom.show Reference.box) (Some (JNumber 0))
  = (true, Dom.show Reference.box).
Proof.
  assert (Hx : ∀ b, JNumber 0 ≠ JBoolean b) by (intros b; discriminate).
  split; [exact Hx|].
  by destruct (show_hide_visible Reference.box _ Hx)
    as (_ & _ & _ & _ & _ & _ & _ & _ & Hshow).
Defined.

(** ** Locators *)

Lemma filter_first {A} (P : A → Prop) `{∀ x, Decision (P x)}
  (l : list A) (x : A) (rest : list A) :
  filter P l = x :: rest →
  ∃ before after, l = before ++ x :: after ∧ P x ∧ ∀ y, y ∈ before → ¬ P y.
Proof.
  induction l as [|a l IH]; [done|].
  destruct (decide (P a)) as [Ha|Ha].
  - rewrite filter_cons_True by done. intros [= -> _].
    exists [], l. split; [done|]. split; [done|]. by intros y ?%elem_of_nil.
  - rewrite filter_cons_False by done. intros Hf.
    destruct (IH Hf) as (before & after & -> & Hx & Hbefore).
    exists (a :: before), after. split; [done|]. split; [done|].
    intros y [->|Hy]%elem_of_cons; [done | by apply Hbefore].
Qed.

(** X15. [gebid] returns an element exactly when the identifier is not
    empty and some element of the document carries it; the element
    returned carries the identifier and is the first such element in tree
    order.  It never returns [undefined]. *)
Theorem gebid_first_with_id (id : string) (document : Document) :
  let all := descendants (OfDocument document) in
  (∀ n, Dom.gebid id document = Normal (Found n) →
        id ≠ "" ∧ Host.id (element_of n) = id ∧
        ∃ before after, all = before ++ n :: after ∧
                        ∀ m, m ∈ before → Host.id (element_of m) ≠ id) ∧
  (id ≠ "" → (∃ m, m ∈ all ∧ Host.id (element_of m) = id) →
   ∃ n, Dom.gebid id document = Normal (Found n)) ∧
  Dom.gebid id document ≠ Normal Undefined.
Proof.
  intros all. unfold Dom.gebid, getElementById. fold all. repeat apply conj.
  - intros n Hn. destruct id as [|a id']; [done|].
    destruct (filter _ all) as [|n' rest] eqn:Hf; [done|].
    injection Hn as ->. split; [done|].
    destruct (filter_first _ _ _ _ Hf) as (before & after & Hall & Hid & Hb).
    split; [done|]. by exists before, after.
  - intros Hid (m & Hm & Hmid). destruct id as [|a id']; [done|].
    destruct (filter _ all) as [|n' rest] eqn:Hf; [|by eexists].
    assert (m ∈ filter (fun n => Host.id (element_of n) = String a id') all)
      as Hin by (by apply list_elem_of_filter).
    rewrite Hf in Hin. by apply elem_of_nil in Hin.
  - destruct id as [|a id']; [done|]. by destruct (filter _ all).
Qed.

Lemma gebid_first_with_id_witness :
  "main" ≠ "" ∧
  (∃ m, m ∈ descendants (OfDocument Reference.page) ∧
        Host.id (element_of m) = "main") ∧
  Dom.gebid "main" Reference.page = Normal (Found Reference.main) ∧
  Dom.gebid "" Reference.page = Normal Null.
Proof.
  assert (Hne : "main" ≠ "") by discriminate.
  assert (Hm : ∃ m, m ∈ descendants (OfDocument Reference.page) ∧
                    Host.id (element_of m) = "main").
  { exists Reference.main. split; [left | reflexivity]. }
  destruct (gebid_first_with_id "main" Reference.page) as (_ & Hfound & _).
  destruct (Hfound Hne Hm) as (n & Hn).
  split; [exact Hne|]. split; [exact Hm|]. split; [|reflexivity].
  rewrite Hn. vm_compute in Hn. injection Hn as <-. reflexivity.
Defined.

Lemma namedItem_first (l : list Node) (key : string) (n : Node) :
  namedItem l key = Some n →
  key ≠ "" ∧ named key n = true ∧
  ∃ before after, l = before ++ n :: after ∧
                  ∀ m, m ∈ before → named key m = false.
Proof.
  unfold namedItem. destruct key as [|a key']; [done|].
  destruct (filter _ l) as [|n' rest] eqn:Hf; [done|]. intros [= ->].
  destruct (filter_first _ _ _ _ Hf) as (before & after & Hl & Hn & Hb).
  split; [done|]. split; [by apply Is_true_true|].
  exists before, after. split; [done|].
  intros m Hm. apply not_true_is_false. intros Hnamed.
  by apply (Hb m Hm), Is_true_true.
Qed.

Lemma namedItem_finds (l : list Node) (key : string) (m : Node) :
  key ≠ "" → m ∈ l → named key m = true → is_Some (namedItem l key).
Proof.
  intros Hkey Hm Hnamed. unfold namedItem. destruct key as [|a key']; [done|].
  destruct (filter _ l) as [|n' rest] eqn:Hf; [|by eexists].
  assert (m ∈ filter (named (String a key')) l) as Hin
    by (apply list_elem_of_filter; split; [by apply Is_true_true | done]).
  rewrite Hf in Hin. by apply elem_of_nil in Hin.
Qed.

(** X16. [child] with an array index (an integer from 0 to 2^32 - 2)
    returns an element exactly when the index is below the number of
    children, and it is the child at that position.  With a Number that is
    no array index (negative, fractional, 2^32 - 1 or more), it returns an
    element exactly when some child has what the Number prints as for its
    id, or for its [name] attribute if it is in the HTML namespace, and it
    is the first such child.  In every other case it returns [undefined];
    it never returns [null]. *)
Theorem child_at_index (element : Node) (index : Number) :
  let children := children_of element in
  let key := Number_toString index in
  (∀ i, array_index index = Some i →
     (∀ n, Dom.child element index = Normal (Found n)
           ↔ children !! i = Some n) ∧
     (i < length children ↔ ∃ n, Dom.child element index = Normal (Found n))) ∧
  (array_index index = None →
     (∀ n, Dom.child element index = Normal (Found n) →
           named key n = true ∧
           ∃ before after, children = before ++ n :: after ∧
                           ∀ m, m ∈ before → named key m = false) ∧
     (key ≠ "" → ∀ m, m ∈ children → named key m = true →
      ∃ n, Dom.child element index = Normal (Found n))) ∧
  (Dom.child element index = Normal Undefined
   ∨ ∃ n, Dom.child element index = Normal (Found n)).
Proof.
  intros children key. unfold Dom.child. split; [|split].
  - intros i Hi. unfold item. rewrite Hi. fold children. split.
    + intros n. destruct (children !! i) as [m|]; split; congruence.
    + split.
      * intros [n Hn]%lookup_lt_is_Some_2. rewrite Hn. by exists n.
      * intros [n Hn]. destruct (children !! i) as [m|] eqn:Hm; [|done].
        by apply lookup_lt_Some in Hm.
  - intros Hi. rewrite item_by_name by done. fold children key. split.
    + intros n Hn. destruct (namedItem children key) as [m|] eqn:Hm; [|done].
      injection Hn as ->. by destruct (namedItem_first _ _ _ Hm) as (_ & ? & ?).
    + intros Hkey m Hm Hnamed.
      destruct (namedItem_finds children key m Hkey Hm Hnamed) as [n Hn].
      rewrite Hn. by exists n.
  - destruct (item (children_of element) index) as [n|]; [right | by left].
    by exists n.
Qed.

Lemma child_at_index_witness :
  array_index (Integer 1) = Some 1 ∧ array_index (Integer (-1)) = None ∧
  Number_toString (Integer (-1)) ≠ "" ∧
  Dom.child Reference.listing (Integer 1)
  = Normal (Found (Elem Reference.plain_item [])) ∧
  Dom.child Reference.listing (Integer (-1))
  = Normal (Found (Elem Reference.minus_one [])) ∧
  Dom.child Reference.listing (Integer 2) = Normal Undefined.
Proof.
  assert (Hkey : Number_toString (Integer (-1)) ≠ "") by discriminate.
  destruct (child_at_index Reference.listing (Integer 1)) as (Hone & _).
  destruct (Hone 1 eq_refl) as (Hat & _).
  destruct (child_at_index Reference.listing (Integer (-1)))
    as (_ & Hname & _).
  destruct (Hname eq_refl) as (Hfirst & Hfound).
  destruct (Hfound Hkey (Elem Reference.minus_one []))
    as (n & Hn); [by left | reflexivity |].
  destruct (Hfirst n Hn) as (_ & before & after & Hl & Hb).
  split; [reflexivity|]. split; [reflexivity|]. split; [exact Hkey|].
  split; [by apply Hat|]. split; [|reflexivity].
  rewrite Hn. vm_compute in Hn. injection Hn as <-. reflexivity.
Defined.

(** X17. [qs] agrees with [qsAll] on every string, scope and document:
    where [qsAll] returns an array, [qs] returns its first element, or
    [null] when the array is empty; where [qsAll] throws, [qs] throws the
    same exception. *)
Theorem qs_first_of_qsAll `{Platform} (selector : string)
  (parent : option ParentNode) (document : Document) :
  match Dom.qsAll selector parent document with
  | Normal elements =>
      Dom.qs selector parent document
      = Normal (match elements with
                | Some n :: _ => Found n
                | _ => Null
                end)
  | Throw e => Dom.qs selector parent document = Throw e
  end.
Proof.
  destruct (selector_engine selector) as [matching|] eqn:Hsel.
  - rewrite (qsAll_copies _ _ _ _ Hsel), (qs_accepts _ _ _ _ Hsel).
    by destruct (matching _).
  - by rewrite qsAll_rejects, qs_rejects.
Qed.

(** X18. What [gebcn] and [gebtn] return has no hole, lists elements of
    the document in tree order, and holds an element exactly when it
    matches.  For [gebcn]: the argument has at least one class token and
    the element carries every token, exactly as written, or up to ASCII
    case when the document is in quirks mode.  For [gebtn]: the argument
    is ["*"], or the element's tag is the argument, taken in lower case
    for an HTML element of an HTML document and as written for any other
    element. *)
Theorem gebcn_gebtn_contents (className tagName : string)
  (document : Document) :
  let all := descendants (OfDocument document) in
  (∃ elements,
     Dom.gebcn className document = Normal elements ∧
     (None ∉ elements) ∧ elements `sublist_of` (Some <$> all) ∧
     ∀ n, Some n ∈ elements
          ↔ n ∈ all ∧ tokens className ≠ [] ∧
            ∀ c, c ∈ tokens className →
                 if quirks document
                 then lowercase c ∈ lowercase <$> classList (element_of n)
                 else c ∈ classList (element_of n)) ∧
  (∃ elements,
     Dom.gebtn tagName document = Normal elements ∧
     (None ∉ elements) ∧ elements `sublist_of` (Some <$> all) ∧
     ∀ n, Some n ∈ elements
          ↔ n ∈ all ∧ (tagName = "*" ∨
                       localName (element_of n)
                       = if folds_case (element_of n)
                         then lowercase tagName else tagName)).
Proof.
  intros all.
  assert (Hclass : ∀ c e, has_class (quirks document) c e = true
            ↔ if quirks document
              then lowercase c ∈ lowercase <$> classList e
              else c ∈ classList e).
  { intros c e. unfold has_class, contains.
    destruct (quirks document); apply bool_decide_eq_true. }
  split.
  - rewrite gebcn_copies. eexists. split; [done|].
    unfold getElementsByClassName. fold all.
    split; [by intros (n & ? & _)%list_elem_of_fmap|].
    split.
    + apply fmap_sublist. destruct (tokens className);
        [apply sublist_nil_l | apply sublist_filter].
    + intros n. rewrite (list_elem_of_fmap_inj Some).
      destruct (tokens className) as [|t ts].
      * rewrite elem_of_nil. by split; [|intros (_ & ? & _)].
      * rewrite list_elem_of_filter, forallb_True, Forall_forall.
        split.
        -- intros (Hall & Hn). split; [done|]. split; [done|].
           intros c Hc. by apply Hclass, Is_true_true, Hall.
        -- intros (Hn & _ & Hall). split; [|done].
           intros c Hc. by apply Is_true_true, Hclass, Hall.
  - rewrite gebtn_copies. eexists. split; [done|].
    unfold getElementsByTagName. fold all.
    split; [by intros (n & ? & _)%list_elem_of_fmap|].
    split.
    + apply fmap_sublist. case_decide; [done | apply sublist_filter].
    + intros n. rewrite (list_elem_of_fmap_inj Some).
      case_decide as Hstar.
      * split; [intros Hn; split; [done | by left] | by intros [? _]].
      * rewrite list_elem_of_filter. unfold tag_matches.
        rewrite bool_decide_spec. split.
        -- intros [Htag Hn]. split; [done | by right].
        -- intros [Hn [->|Htag]]; [done | by split].
Qed.

(** X19. One call of [addClass] or [removeClass] with several class names
    does what successive calls with the names in the same order do: the
    call with [cs1] followed by the call with [cs2] leaves the element as
    the single call with [cs1] and then [cs2] leaves it. *)
Theorem variadic_call_is_successive_calls (el : Element)
  (cs1 cs2 : list string) :
  Forall class_name cs1 → Forall class_name cs2 →
  Dom.addClass el (cs1 ++ cs2) = Dom.addClass (snd (Dom.addClass el cs1)) cs2 ∧
  Dom.removeClass el (cs1 ++ cs2)
  = Dom.removeClass (snd (Dom.removeClass el cs1)) cs2.
Proof.
  intros H1 H2. unfold Dom.addClass, Dom.removeClass.
  assert (Forall class_name (cs1 ++ cs2)) as H12 by (by apply Forall_app).
  rewrite !classList_add_accepts, !classList_remove_accepts by done.
  simpl. by rewrite !foldl_app.
Qed.

Lemma variadic_call_is_successive_calls_witness :
  Forall class_name ["z"] ∧ Forall class_name ["x"; "q"] ∧
  Dom.addClass Reference.para1 ["z"; "x"; "q"]
  = Dom.addClass (snd (Dom.addClass Reference.para1 ["z"])) ["x"; "q"] ∧
  classList (snd (Dom.addClass Reference.para1 ["z"; "x"; "q"]))
  = ["x"; "z"; "q"].
Proof.
  assert (H1 : Forall class_name ["z"]) by (repeat constructor).
  assert (H2 : Forall class_name ["x"; "q"]) by (repeat constructor).
  destruct (variadic_call_is_successive_calls Reference.para1 _ _ H1 H2)
    as (Hadd & _).
  split; [exact H1|]. split; [exact H2|]. split; [exact Hadd | reflexivity].
Defined.
